(** * Real-time messaging app: socket fan-out, message routes and chat client

    A shallow embedding of
    - the socket.io connection handler of the server
      (the [io.on('connection', ...)] block: join_room, leave_room,
      send_message, typing, disconnect),
    - the message routes (routes/messages.js: GET /:roomId, POST /,
      PUT /:id, DELETE /:id and the two reaction routes),
    - the chat client (ChatRoom.js: handleSendMessage, handleTyping and the
      user_typing and receive_message listeners; the emit helpers of the
      SocketContext provider),
    followed by the properties of the fan-out core checked against the
    design document. *)

From Stdlib Require Import ZArith Lia Ascii String.
From stdpp Require Import gmap strings list fin_maps sorting pretty.

Set Warnings "-register-all,-clear-no-such-hyp".

Open Scope Z_scope.
Open Scope string_scope.

(* ===================================================================== *)
(** ** JavaScript values carried by events *)
(* ===================================================================== *)

Module Js.

(** Event payloads are JSON-like values.  An object is the list of its
    fields in the order of the object literal. *)
Inductive value :=
| VUndef
| VNull
| VBool (b : bool)
| VNum (n : Z)
| VStr (s : string)
| VObj (fields : list (string * value)).

Fixpoint assoc (k : string) (fs : list (string * value)) : value :=
  match fs with
  | [] => VUndef
  | (k', v) :: fs' => if String.eqb k k' then v else assoc k fs'
  end.

(** [data.k]: reading a property of [undefined] or [null] throws a
    TypeError ([None]); a missing property reads as [undefined].  The keys
    read by the program (roomId, userId, username, isTyping, _id) are not
    properties of the primitive wrappers, so a primitive reads as
    [undefined]. *)
Definition prop (k : string) (v : value) : option value :=
  match v with
  | VUndef | VNull => None
  | VObj fs => Some (assoc k fs)
  | _ => Some VUndef
  end.

(** Own keys of an object, in order. *)
Definition keys (v : value) : list string :=
  match v with
  | VObj fs => fst <$> fs
  | _ => []
  end.

(** [a === b] on values that arrive over the wire: primitives compare by
    value, two objects are never the same reference. *)
Definition strict_eq (a b : value) : bool :=
  match a, b with
  | VUndef, VUndef => true
  | VNull, VNull => true
  | VBool x, VBool y => Bool.eqb x y
  | VNum x, VNum y => Z.eqb x y
  | VStr x, VStr y => String.eqb x y
  | _, _ => false
  end.

(** Truthiness, as used by [if (v)] and [!v]. *)
Definition truthy (v : value) : bool :=
  match v with
  | VUndef | VNull => false
  | VBool b => b
  | VNum n => negb (Z.eqb n 0)
  | VStr s => negb (String.eqb s "")
  | VObj _ => true
  end.

(** [a || b] *)
Definition or_else (a b : value) : value := if truthy a then a else b.

End Js.
Import Js.

(* ===================================================================== *)
(** ** socket.io rooms (the library's in-memory adapter) *)
(* ===================================================================== *)

Module SocketIO.

(** What the program relies on from the socket.io server library, as the
    library documents it: rooms are sets of sockets, [join] and [leave]
    add and remove the socket, a closing socket leaves all its rooms, and
    [socket.to(room).emit] reaches every socket of the room but the
    emitting one.

    The adapter maps a room name to the set of socket ids in it; a room
    with no socket left is dropped from the map. *)
Abbreviation adapter := (gmap string (gset string)).

Definition sockets_in (r : string) (a : adapter) : gset string :=
  default ∅ (a !! r).

(** [socket.join(r)] *)
Definition socket_join (sid r : string) (a : adapter) : adapter :=
  <[r := {[sid]} ∪ sockets_in r a]> a.

Definition drop_socket (sid : string) (s : gset string) : option (gset string) :=
  let s' := s ∖ {[sid]} in
  if decide (s' = ∅) then None else Some s'.

(** [socket.leave(r)] *)
Definition socket_leave (sid r : string) (a : adapter) : adapter :=
  match a !! r with
  | None => a
  | Some s =>
      match drop_socket sid s with
      | None => delete r a
      | Some s' => <[r := s']> a
      end
  end.

(** Leaving every room, done by the library when a socket closes, before
    the 'disconnect' listeners run. *)
Definition socket_leave_all (sid : string) (a : adapter) : adapter :=
  omap (drop_socket sid) a.

(** One event put on the outbound queue of one socket. *)
Record delivery := Deliver {
  target : string;
  event : string;
  payload : value
}.

(** [socket.to(r).emit(ev, p)]: every socket of room [r] except the
    emitting socket itself. *)
Definition socket_to_emit (sid r ev : string) (p : value) (a : adapter)
  : list delivery :=
  (λ c, Deliver c ev p) <$> elements (sockets_in r a ∖ {[sid]}).

(** [socket.to(v)] for an arbitrary payload value [v]: rooms are joined
    under string names only, so a value that is not a string names no
    room. *)
Definition socket_to_value_emit (sid : string) (v : value) (ev : string)
    (p : value) (a : adapter) : list delivery :=
  match v with
  | VStr r => socket_to_emit sid r ev p a
  | _ => []
  end.

End SocketIO.
Import SocketIO.

(* ===================================================================== *)
(** ** Stored documents (models/Room.js, models/Message.js) *)
(* ===================================================================== *)

Module Models.

(** An entry of [Room.members]. *)
Record member := Member {
  user : string;
  role : string
}.

(** A Room document; the collection is keyed by [_id]. *)
Record room_doc := RoomDoc {
  name : string;
  members : list member;
  isActive : bool;
  lastMessage : option string
}.

Record reaction := Reaction {
  reaction_user : string;
  emoji : string
}.

(** A Message document; the collection is keyed by [_id].  [content] is
    absent for a message that only has attachments; dates are
    milliseconds. *)
Record message := Message {
  content : option string;
  sender : string;
  room : string;
  messageType : string;
  attachments : list value;
  replyTo : option string;
  editedAt : option Z;
  isEdited : bool;
  isDeleted : bool;
  deletedAt : option Z;
  reactions : list reaction;
  createdAt : Z
}.

(** Of the User model only the fields named by the routes' [populate]
    calls are known. *)
Record user_doc := UserDoc {
  username : string;
  isOnline : bool
}.

Record database := Database {
  Messages : gmap string message;
  Rooms : gmap string room_doc;
  Users : gmap string user_doc
}.

(** The membership query every route runs:
    [Room.findOne({_id: roomId, 'members.user': userId, isActive: true})]. *)
Definition Room_findOne_member (roomId userId : string) (d : database)
  : option room_doc :=
  match Rooms d !! roomId with
  | Some r =>
      if isActive r && bool_decide (userId ∈ user <$> members r)
      then Some r else None
  | None => None
  end.

Definition is_member (userId roomId : string) (d : database) : bool :=
  bool_decide (is_Some (Room_findOne_member roomId userId d)).

Definition is_online (userId : string) (d : database) : bool :=
  match Users d !! userId with
  | Some u => isOnline u
  | None => false
  end.

End Models.
Import Models.

(* ===================================================================== *)
(** ** The socket server: [io.on('connection', (socket) => ...)] *)
(* ===================================================================== *)

Module Server.

(** The process holds the socket.io rooms and talks to the database. *)
Record server := MkServer {
  rooms : adapter;
  db : database
}.

Definition with_rooms (f : adapter → adapter) (s : server) : server :=
  {| rooms := f (rooms s); db := db s |}.

Inductive effect :=
| Log (line : string)
| Emit (d : delivery).

(** Result of one listener: the new state and what it did, or [None] when
    the listener threw. *)
Definition outcome := option (server * list effect).

(** A new socket is put in the room named by its own id by the library;
    the listener body logs. *)
Definition connection (sid : string) (s : server) : outcome :=
  Some (with_rooms (socket_join sid sid) s, [Log ("User connected: " ++ sid)]).

(** [socket.on('join_room', (roomId) => { socket.join(roomId); ... })] *)
Definition join_room (sid roomId : string) (s : server) : outcome :=
  Some (with_rooms (socket_join sid roomId) s,
        [Log ("User " ++ sid ++ " joined room " ++ roomId)]).

(** [socket.on('leave_room', (roomId) => { socket.leave(roomId); ... })] *)
Definition leave_room (sid roomId : string) (s : server) : outcome :=
  Some (with_rooms (socket_leave sid roomId) s,
        [Log ("User " ++ sid ++ " left room " ++ roomId)]).

(** [socket.on('send_message', (data) =>
      socket.to(data.roomId).emit('receive_message', data))] *)
Definition send_message (sid : string) (data : value) (s : server) : outcome :=
  match prop "roomId" data with
  | None => None
  | Some r =>
      Some (s, Emit <$> socket_to_value_emit sid r "receive_message" data (rooms s))
  end.

(** The object literal built by the typing listener. *)
Definition typing_payload (data : value) : option value :=
  match prop "userId" data, prop "username" data, prop "isTyping" data with
  | Some u, Some n, Some t =>
      Some (VObj [("userId", u); ("username", n); ("isTyping", t)])
  | _, _, _ => None
  end.

(** [socket.on('typing', (data) =>
      socket.to(data.roomId).emit('user_typing', {userId: data.userId,
        username: data.username, isTyping: data.isTyping}))] *)
Definition typing (sid : string) (data : value) (s : server) : outcome :=
  match prop "roomId" data, typing_payload data with
  | Some r, Some p =>
      Some (s, Emit <$> socket_to_value_emit sid r "user_typing" p (rooms s))
  | _, _ => None
  end.

(** When a socket closes the library takes it out of all its rooms, then
    runs [socket.on('disconnect', () => console.log(...))]. *)
Definition disconnect (sid : string) (s : server) : outcome :=
  Some (with_rooms (socket_leave_all sid) s, [Log ("User disconnected: " ++ sid)]).

(** Inbound events of one socket. *)
Inductive inbound :=
| Connect
| JoinRoom (roomId : string)
| LeaveRoom (roomId : string)
| SendMessage (data : value)
| Typing (data : value)
| Disconnect.

Definition handle (sid : string) (e : inbound) (s : server) : outcome :=
  match e with
  | Connect => connection sid s
  | JoinRoom r => join_room sid r s
  | LeaveRoom r => leave_room sid r s
  | SendMessage data => send_message sid data s
  | Typing data => typing sid data s
  | Disconnect => disconnect sid s
  end.

(** The server starts with no socket in any room. *)
Definition start (d : database) : server := {| rooms := ∅; db := d |}.

(** States the server reaches from [start d] by handling socket events. *)
Inductive reachable (d : database) : server → Prop :=
| reach_start : reachable d (start d)
| reach_step s sid e s' out :
    reachable d s → handle sid e s = Some (s', out) → reachable d s'.

(** Handling a sequence of events, keeping what the last one did. *)
Fixpoint handle_all (evs : list (string * inbound)) (s : server) : outcome :=
  match evs with
  | [] => Some (s, [])
  | [(sid, e)] => handle sid e s
  | (sid, e) :: rest =>
      match handle sid e s with
      | Some (s', _) => handle_all rest s'
      | None => None
      end
  end.

(** Sockets a list of effects delivers to. *)
Definition deliveries (out : list effect) : list delivery :=
  omap (λ e, match e with Emit d => Some d | Log _ => None end) out.

Definition audience (out : list effect) : gset string :=
  list_to_set (target <$> deliveries out).

(** Who a recipient is told the event comes from: the [userId] of a
    user_typing event, the [sender] of a receive_message event. *)
Definition originator (d : delivery) : option value :=
  if String.eqb (event d) "user_typing" then prop "userId" (payload d)
  else prop "sender" (payload d).

End Server.
Import Server.

(* ===================================================================== *)
(** ** The message routes (routes/messages.js) *)
(* ===================================================================== *)

Module Routes.

(** What the surroundings of one request decide: the clock, the [_id] the
    driver gives a new document, and which of the request's database
    calls (numbered in program order from 0) reject.  A rejected call
    throws, and the route's [catch] answers 500. *)
Record env := Env {
  now : Z;
  new_id : string;
  rejects : nat → bool
}.

(** A message as a response carries it: the document under its [_id],
    and the document [populate('replyTo')] put in place of the reference
    (absent when the route does not populate it, or nothing is referenced). *)
Record listed := Listed {
  l_id : string;
  l_doc : message;
  l_replyTo : option (string * message)
}.

Inductive body :=
| BMessage (text : string)
| BErrors
| BData (text : string) (m : listed)
| BPage (messages : list listed) (totalMessages : nat).

Record response := Response {
  status : nat;
  json : body
}.

Definition server_error : response := Response 500 (BMessage "Server error").

(** *** String helpers of the validators *)

Definition is_space (a : ascii) : bool :=
  let n := nat_of_ascii a in
  (Nat.eqb n 32 || (Nat.leb 9 n && Nat.leb n 13))%bool.

Fixpoint ltrim (s : string) : string :=
  match s with
  | String a s' => if is_space a then ltrim s' else s
  | EmptyString => EmptyString
  end.

Definition reverse_string (s : string) : string :=
  string_of_list_ascii (rev (list_ascii_of_string s)).

(** [.trim()] *)
Definition trim (s : string) : string :=
  reverse_string (ltrim (reverse_string (ltrim s))).

Definition max_content : nat := 2000.

Definition message_types : list string := ["text"; "image"; "file"; "system"].

(** *** The Message model *)

(** Schema validation run by [save]: [content] is required exactly when
    there is no attachment, is at most 2000 long, and [messageType] is one
    of the enum. *)
Definition valid_message (m : message) : bool :=
  (match content m with
   | Some c =>
       (negb (String.eqb c "") || negb (bool_decide (attachments m = [])))
       && Nat.leb (String.length c) max_content
   | None => negb (bool_decide (attachments m = []))
   end
   && bool_decide (messageType m ∈ message_types))%bool.

(** [new Message({content, sender, room, messageType, attachments,
    replyTo})]: the schema trims [content] and fills the defaults. *)
Definition new_Message (c : option string) (from rm ty : string)
    (att : list value) (re : option string) (t : Z) : message :=
  {| content := trim <$> c; sender := from; room := rm; messageType := ty;
     attachments := att; replyTo := re; editedAt := None; isEdited := false;
     isDeleted := false; deletedAt := None; reactions := []; createdAt := t |}.

Definition set_Messages (f : gmap string message → gmap string message)
    (d : database) : database :=
  {| Messages := f (Messages d); Rooms := Rooms d; Users := Users d |}.

Definition set_Rooms (f : gmap string room_doc → gmap string room_doc)
    (d : database) : database :=
  {| Messages := Messages d; Rooms := f (Rooms d); Users := Users d |}.

(** [message.save()] of a new document: rejected when validation fails
    or the [_id] is taken. *)
Definition save_new (id : string) (m : message) (d : database)
  : option database :=
  if valid_message m then
    match Messages d !! id with
    | None => Some (set_Messages <[id := m]> d)
    | Some _ => None
    end
  else None.

(** [message.save()] of a document read earlier. *)
Definition save_existing (id : string) (m : message) (d : database)
  : option database :=
  if valid_message m then Some (set_Messages <[id := m]> d) else None.

(** [Message.findOne({_id: id, isDeleted: false})] *)
Definition Message_findOne (id : string) (d : database) : option message :=
  match Messages d !! id with
  | Some m => if isDeleted m then None else Some m
  | None => None
  end.

(** [Message.findOne({_id: id, sender: userId, isDeleted: false})] *)
Definition Message_findOne_own (id userId : string) (d : database)
  : option message :=
  match Message_findOne id d with
  | Some m => if String.eqb (sender m) userId then Some m else None
  | None => None
  end.

(** [Room.findByIdAndUpdate(roomId, {lastMessage: id})] *)
Definition Room_set_lastMessage (roomId id : string) (d : database) : database :=
  set_Rooms (alter (λ r, {| name := name r; members := members r;
                            isActive := isActive r; lastMessage := Some id |})
                   roomId) d.

(** [.populate('replyTo')]: the referenced document, whatever its
    [isDeleted]. *)
Definition populate_replyTo (d : database) (im : string * message) : listed :=
  Listed im.1 im.2
    (match replyTo im.2 with
     | Some rid => (λ m, (rid, m)) <$> Messages d !! rid
     | None => None
     end).

Definition unpopulated (id : string) (m : message) : listed := Listed id m None.

(** *** POST /api/messages *)

Record post_body := PostBody {
  b_content : option string;
  b_roomId : option string;
  b_messageType : option string;
  b_attachments : option (list value);
  b_replyTo : option string
}.

(** The express-validator chain of the route; on success the sanitized
    content (trimmed). *)
Definition validate_post (b : post_body) : option (option string) :=
  let c := trim <$> b_content b in
  let content_ok :=
    match c with Some s => Nat.leb (String.length s) max_content | None => true end in
  let room_ok :=
    match b_roomId b with Some r => negb (String.eqb r "") | None => false end in
  let type_ok :=
    match b_messageType b with
    | Some t => bool_decide (t ∈ message_types)
    | None => true
    end in
  if (content_ok && room_ok && type_ok)%bool then Some c else None.

Definition falsy_string (c : option string) : bool :=
  match c with Some s => String.eqb s "" | None => true end.

Definition post_message (userId : string) (b : post_body) (e : env)
    (d : database) : database * response :=
  match validate_post b with
  | None => (d, Response 400 BErrors)
  | Some c =>
      let roomId := default "" (b_roomId b) in
      let messageType := default "text" (b_messageType b) in
      let att := default [] (b_attachments b) in
      if rejects e 0%nat then (d, server_error) else
      match Room_findOne_member roomId userId d with
      | None => (d, Response 404 (BMessage "Room not found or access denied"))
      | Some _ =>
          if (falsy_string c && bool_decide (att = []))%bool
          then (d, Response 400 (BMessage "Message content or attachments required"))
          else
            let m := new_Message c userId roomId messageType att (b_replyTo b) (now e) in
            if rejects e 1%nat then (d, server_error) else
            match save_new (new_id e) m d with
            | None => (d, server_error)
            | Some d1 =>
                if (rejects e 2%nat || rejects e 3%nat || rejects e 4%nat)%bool
                then (d1, server_error)
                else (Room_set_lastMessage roomId (new_id e) d1,
                      Response 201 (BData "Message sent successfully"
                                      (populate_replyTo d1 (new_id e, m))))
            end
      end
  end.

(** *** PUT /api/messages/:id *)

Definition day_ms : Z := 24 * (1000 * 60 * 60).

Definition put_message (userId id : string) (new_content : option string)
    (e : env) (d : database) : database * response :=
  match new_content with
  | None => (d, Response 400 BErrors)
  | Some raw =>
      if String.eqb raw "" then (d, Response 400 BErrors) else
      let c := trim raw in
      if negb (Nat.leb (String.length c) max_content)
      then (d, Response 400 BErrors) else
      if rejects e 0%nat then (d, server_error) else
      match Message_findOne_own id userId d with
      | None => (d, Response 404 (BMessage "Message not found or access denied"))
      | Some m =>
          if (day_ms <? now e - createdAt m)%Z
          then (d, Response 400 (BMessage "Message is too old to edit"))
          else
            let m' := {| content := Some c; sender := sender m; room := room m;
                         messageType := messageType m;
                         attachments := attachments m; replyTo := replyTo m;
                         editedAt := Some (now e); isEdited := true;
                         isDeleted := isDeleted m; deletedAt := deletedAt m;
                         reactions := reactions m; createdAt := createdAt m |} in
            if rejects e 1%nat then (d, server_error) else
            match save_existing id m' d with
            | None => (d, server_error)
            | Some d1 =>
                if rejects e 2%nat then (d1, server_error)
                else (d1, Response 200 (BData "Message updated successfully"
                                          (unpopulated id m')))
            end
      end
  end.

(** *** DELETE /api/messages/:id *)

Definition deleted_text : string := "This message was deleted".

Definition soft_deleted (m : message) (t : Z) : message :=
  {| content := Some deleted_text; sender := sender m; room := room m;
     messageType := messageType m; attachments := attachments m;
     replyTo := replyTo m; editedAt := editedAt m; isEdited := isEdited m;
     isDeleted := true; deletedAt := Some t;
     reactions := reactions m; createdAt := createdAt m |}.

Definition delete_message (userId id : string) (e : env) (d : database)
  : database * response :=
  if rejects e 0%nat then (d, server_error) else
  match Message_findOne_own id userId d with
  | None => (d, Response 404 (BMessage "Message not found or access denied"))
  | Some m =>
      if rejects e 1%nat then (d, server_error) else
      match save_existing id (soft_deleted m (now e)) d with
      | None => (d, server_error)
      | Some d1 => (d1, Response 200 (BMessage "Message deleted successfully"))
      end
  end.

(** *** POST /api/messages/:id/reactions and
        DELETE /api/messages/:id/reactions/:emoji *)

Definition with_reactions (rs : list reaction) (m : message) : message :=
  {| content := content m; sender := sender m; room := room m;
     messageType := messageType m; attachments := attachments m;
     replyTo := replyTo m; editedAt := editedAt m; isEdited := isEdited m;
     isDeleted := isDeleted m; deletedAt := deletedAt m;
     reactions := rs; createdAt := createdAt m |}.

Definition same_reaction (userId em : string) (r : reaction) : bool :=
  (String.eqb (reaction_user r) userId && String.eqb (emoji r) em)%bool.

Definition add_reaction (userId id : string) (em : option string) (e : env)
    (d : database) : database * response :=
  match em with
  | None => (d, Response 400 BErrors)
  | Some em =>
      if String.eqb em "" then (d, Response 400 BErrors) else
      if rejects e 0%nat then (d, server_error) else
      match Message_findOne id d with
      | None => (d, Response 404 (BMessage "Message not found"))
      | Some m =>
          if existsb (same_reaction userId em) (reactions m)
          then (d, Response 400 (BMessage "Already reacted with this emoji"))
          else
            let m' := with_reactions (reactions m ++ [Reaction userId em])%list m in
            if rejects e 1%nat then (d, server_error) else
            match save_existing id m' d with
            | None => (d, server_error)
            | Some d1 =>
                if rejects e 2%nat then (d1, server_error)
                else (d1, Response 200 (BData "Reaction added successfully"
                                          (unpopulated id m')))
            end
      end
  end.

Definition remove_reaction (userId id em : string) (e : env) (d : database)
  : database * response :=
  if rejects e 0%nat then (d, server_error) else
  match Message_findOne id d with
  | None => (d, Response 404 (BMessage "Message not found"))
  | Some m =>
      let m' := with_reactions
                  (List.filter (λ r, negb (same_reaction userId em r)) (reactions m)) m in
      if rejects e 1%nat then (d, server_error) else
      match save_existing id m' d with
      | None => (d, server_error)
      | Some d1 =>
          if rejects e 2%nat then (d1, server_error)
          else (d1, Response 200 (BData "Reaction removed successfully"
                                      (unpopulated id m')))
      end
  end.

(** *** GET /api/messages/:roomId *)

(** The filter [{room: roomId, isDeleted: false}]. *)
Definition in_room_not_deleted (roomId : string) (im : string * message) : bool :=
  (String.eqb (room im.2) roomId && negb (isDeleted im.2))%bool.

(** [.sort({createdAt: -1})] *)
Definition newer_first (a b : string * message) : Prop :=
  (createdAt b.2 ≤ createdAt a.2)%Z.

#[global] Instance newer_first_dec a b : Decision (newer_first a b) :=
  Z_le_dec (createdAt b.2) (createdAt a.2).

(** [.limit(n)]: 0 means no limit, a negative [n] counts as its absolute
    value. *)
Definition limit_to (n : Z) (l : list (string * message)) : list (string * message) :=
  if (n =? 0)%Z then l else take (Z.to_nat (Z.abs n)) l.

(** [Message.find(filter).sort(..).limit(limit).skip(skip)]: the driver
    skips, then limits; a negative skip is rejected. *)
Definition Message_find_page (roomId : string) (limit skip : Z) (d : database)
  : option (list (string * message)) :=
  if (skip <? 0)%Z then None
  else Some (limit_to limit
               (drop (Z.to_nat skip)
                  (merge_sort newer_first
                     (List.filter (in_room_not_deleted roomId)
                        (map_to_list (Messages d)))))).

(** [Message.countDocuments(filter)] *)
Definition Message_count (roomId : string) (d : database) : nat :=
  length (List.filter (in_room_not_deleted roomId) (map_to_list (Messages d))).

(** [page] and [limit] are the numeric query parameters, when given. *)
Definition get_messages (userId roomId : string) (page limit : option Z)
    (e : env) (d : database) : response :=
  let page := default 1%Z page in
  let limit := default 50%Z limit in
  let skip := ((page - 1) * limit)%Z in
  if rejects e 0%nat then server_error else
  match Room_findOne_member roomId userId d with
  | None => Response 404 (BMessage "Room not found or access denied")
  | Some _ =>
      if rejects e 1%nat then server_error else
      match Message_find_page roomId limit skip d with
      | None => server_error
      | Some ms =>
          if rejects e 2%nat then server_error
          else Response 200 (BPage (reverse (populate_replyTo d <$> ms))
                                   (Message_count roomId d))
      end
  end.

(** *** The router *)

Inductive request :=
| GetMessages (roomId : string) (page limit : option Z)
| PostMessage (b : post_body)
| PutMessage (id : string) (new_content : option string)
| DeleteMessage (id : string)
| AddReaction (id : string) (em : option string)
| RemoveReaction (id em : string).

(** One authenticated request: [userId] is the identity the auth
    middleware put in [req.userId]. *)
Definition route (userId : string) (r : request) (e : env) (d : database)
  : database * response :=
  match r with
  | GetMessages roomId page limit => (d, get_messages userId roomId page limit e d)
  | PostMessage b => post_message userId b e d
  | PutMessage id c => put_message userId id c e d
  | DeleteMessage id => delete_message userId id e d
  | AddReaction id em => add_reaction userId id em e d
  | RemoveReaction id em => remove_reaction userId id em e d
  end.

(** A sequence of requests served one after the other. *)
Fixpoint serve (reqs : list (string * request * env)) (d : database) : database :=
  match reqs with
  | [] => d
  | (userId, r, e) :: rest => serve rest (route userId r e d).1
  end.

(** The message stored under [id] is marked deleted. *)
Definition marked_deleted (id : string) (d : database) : Prop :=
  ∃ m, Messages d !! id = Some m ∧ isDeleted m = true.

(** The messages a response lists. *)
Definition returned (r : response) : list listed :=
  match json r with
  | BPage ms _ => ms
  | BData _ m => [m]
  | _ => []
  end.

Definition returned_ids (r : response) : list string := l_id <$> returned r.

(** The messages a response carries in the [replyTo] of a listed message. *)
Definition quoted_ids (r : response) : list string :=
  omap (λ m, fst <$> l_replyTo m) (returned r).

End Routes.
Import Routes.

(* ===================================================================== *)
(** ** The chat client (SocketContext.js provider, ChatRoom.js) *)
(* ===================================================================== *)

Module Client.

(** State of one mounted [ChatRoom]: [socket] is the id of the client's
    socket once the provider has one, [account] the user its HTTP requests
    are authenticated as, [user] the AuthContext user object, [room_id]
    the [_id] of the room shown, [typingTimeout] the time at which the
    pending timeout of [typingTimeoutRef] fires, if one is pending. *)
Record chat := Chat {
  socket : option string;
  account : string;
  user : list (string * value);
  room_id : string;
  newMessage : string;
  isTyping : bool;
  typingTimeout : option Z;
  typingUsers : list value;
  messages : list value
}.

Inductive action :=
| SocketEmit (sid ev : string) (data : value)
| ConsoleError (what : string).

(** [if (socket) socket.emit(ev, data)] *)
Definition emit_if_connected (c : chat) (ev : string) (data : value) : list action :=
  match socket c with
  | Some sid => [SocketEmit sid ev data]
  | None => []
  end.

Definition sendMessage (c : chat) (messageData : value) : list action :=
  emit_if_connected c "send_message" messageData.

Definition sendTyping (c : chat) (data : value) : list action :=
  emit_if_connected c "typing" data.

(** [{roomId: room._id, userId: user._id || user.id,
      username: user.username, isTyping: b}] *)
Definition typing_data (c : chat) (b : bool) : value :=
  VObj [("roomId", VStr (room_id c));
        ("userId", or_else (assoc "_id" (user c)) (assoc "id" (user c)));
        ("username", assoc "username" (user c));
        ("isTyping", VBool b)].

Definition set_typing (b : bool) (timer : option Z) (c : chat) : chat :=
  {| socket := socket c; account := account c; user := user c;
     room_id := room_id c; newMessage := newMessage c; isTyping := b;
     typingTimeout := timer; typingUsers := typingUsers c;
     messages := messages c |}.

Definition set_newMessage (text : string) (c : chat) : chat :=
  {| socket := socket c; account := account c; user := user c;
     room_id := room_id c; newMessage := text; isTyping := isTyping c;
     typingTimeout := typingTimeout c; typingUsers := typingUsers c;
     messages := messages c |}.

Definition set_typingUsers (l : list value) (c : chat) : chat :=
  {| socket := socket c; account := account c; user := user c;
     room_id := room_id c; newMessage := newMessage c; isTyping := isTyping c;
     typingTimeout := typingTimeout c; typingUsers := l;
     messages := messages c |}.


(** axios resolves on a 2xx status and throws otherwise. *)
Definition resolves (r : response) : bool :=
  (Nat.leb 200 (status r) && Nat.ltb (status r) 300)%bool.

(** The object sent over the socket for a new message, built at client
    time [t]. *)
Definition messageData (c : chat) (t : Z) : value :=
  VObj [("content", VStr (newMessage c));
        ("roomId", VStr (room_id c));
        ("sender", VObj (user c));
        ("timestamp", VNum t)].

Definition text_body (c : chat) : post_body :=
  {| b_content := Some (newMessage c); b_roomId := Some (room_id c);
     b_messageType := Some "text"; b_attachments := None; b_replyTo := None |}.

(** [!newMessage.trim()] *)
Definition nothing_to_send (c : chat) : bool :=
  String.eqb (trim (newMessage c)) "".

(** [handleSendMessage] at client time [t]: nothing happens for a blank
    input; otherwise the message is POSTed, and only when the request
    resolved is it emitted on the socket and the typing indicator cleared;
    a failed request is logged.  The third component is the answer to the
    POST, if one was made. *)
Definition handleSendMessage (c : chat) (t : Z) (e : env) (d : database)
  : chat * database * option response * list action :=
  if nothing_to_send c then (c, d, None, []) else
  let '(d', r) := post_message (account c) (text_body c) e d in
  if resolves r then
    (set_typing false (typingTimeout c) (set_newMessage "" c), d', Some r,
     (sendMessage c (messageData c t) ++ sendTyping c (typing_data c false))%list)
  else (c, d', Some r, [ConsoleError "Error sending message:"]).

Definition typing_ttl : Z := 1000.

(** [handleTyping], run at time [t] on every change of the input. *)
Definition handleTyping (t : Z) (c : chat) : chat * list action :=
  let out := if isTyping c then [] else sendTyping c (typing_data c true) in
  (set_typing true (Some (t + typing_ttl)) c, out).

(** The callback given to [setTimeout]. *)
Definition typing_timeout (c : chat) : chat * list action :=
  (set_typing false None c, sendTyping c (typing_data c false)).

(** The clock reaching [t]: a pending timeout whose time has come fires. *)
Definition elapse (t : Z) (c : chat) : chat * list action :=
  match typingTimeout c with
  | Some due => if (due <=? t)%Z then typing_timeout c else (c, [])
  | None => (c, [])
  end.

(** [u => u.userId !== data.userId] on the entries of [typingUsers]. *)
Definition other_user (uid : value) (u : value) : bool :=
  match prop "userId" u with
  | Some x => negb (strict_eq x uid)
  | None => true
  end.

(** [socket.on('user_typing', (data) => ...)]; [None] when reading
    [data] throws. *)
Definition on_user_typing (data : value) (c : chat) : option chat :=
  match prop "roomId" data, prop "isTyping" data, prop "userId" data with
  | Some rid, Some t, Some uid =>
      if strict_eq rid (VStr (room_id c)) then
        let others := List.filter (other_user uid) (typingUsers c) in
        Some (set_typingUsers (if truthy t then (others ++ [data])%list else others) c)
      else Some c
  | _, _, _ => None
  end.



End Client.
Import Client.

(* ===================================================================== *)
(** ** Client and server together *)
(* ===================================================================== *)

Module Flow.

(** The server side of [socket.emit(ev, data)] from socket [sid]. *)
Definition receive (sid ev : string) (data : value) (s : server) : outcome :=
  if String.eqb ev "send_message" then send_message sid data s
  else if String.eqb ev "typing" then typing sid data s
  else Some (s, []).

Fixpoint relay (acts : list action) (s : server) : option (server * list effect) :=
  match acts with
  | [] => Some (s, [])
  | SocketEmit sid ev data :: rest =>
      match receive sid ev data s with
      | Some (s1, out1) =>
          match relay rest s1 with
          | Some (s2, out2) => Some (s2, (out1 ++ out2)%list)
          | None => None
          end
      | None => None
      end
  | ConsoleError _ :: rest => relay rest s
  end.

Record sent := Sent {
  client_after : chat;
  server_after : server;
  answer : option response;
  actions : list action;
  effects : list effect
}.

(** One press of the send button: the POST is
    served from the server's database, then what the client emitted is
    handled by the socket listeners. *)
Definition send_flow (c : chat) (t : Z) (e : env) (s : server) : option sent :=
  let '(c', d', r, acts) := handleSendMessage c t e (db s) in
  match relay acts {| rooms := rooms s; db := d' |} with
  | Some (s', out) => Some (Sent c' s' r acts out)
  | None => None
  end.





End Flow.
Import Flow.

(* ===================================================================== *)
(** ** Sequences of socket events *)
(* ===================================================================== *)

Module Traces.

(** The server after a sequence of events, each handled in turn; [None]
    when a listener threw on the way. *)
Fixpoint after (evs : list (string * inbound)) (s : server) : option server :=
  match evs with
  | [] => Some s
  | (sid, e) :: rest =>
      match handle sid e s with
      | Some (s', _) => after rest s'
      | None => None
      end
  end.

(** What one event says about socket [c] being in room [r], if anything. *)
Definition verdict (c r : string) (ev : string * inbound) : option bool :=
  if String.eqb ev.1 c then
    match ev.2 with
    | Connect => if String.eqb r c then Some true else None
    | JoinRoom r' => if String.eqb r' r then Some true else None
    | LeaveRoom r' => if String.eqb r' r then Some false else None
    | Disconnect => Some false
    | SendMessage _ | Typing _ => None
    end
  else None.

(** The verdict of the last event that has one; [b0] when none has. *)
Definition last_verdict (c r : string) (b0 : bool)
    (evs : list (string * inbound)) : bool :=
  foldl (λ b ev, default b (verdict c r ev)) b0 evs.

End Traces.

(* ===================================================================== *)
(** ** The room membership routes (routes/rooms.js) *)
(* ===================================================================== *)

Module RoomRoutes.

(** Answer of a room route: status, the message text, and the room
    document when the body carries one. *)
Record answer := Answer {
  code : nat;
  text : option string;
  sent_room : option (string * room_doc)
}.

Definition says (n : nat) (t : string) : answer := Answer n (Some t) None.

Definition failed : answer := says 500 "Server error".

(** [{ errors: errors.array() }] *)
Definition invalid : answer := Answer 400 None None.

(** [members.some(member => member.user.toString() === userId)] *)
Definition has_member (userId : string) (r : room_doc) : bool :=
  existsb (λ m, String.eqb (Models.user m) userId) (members r).

(** [members.find(member => member.user.toString() === userId)] *)
Definition find_member (userId : string) (r : room_doc) : option member :=
  List.find (λ m, String.eqb (Models.user m) userId) (members r).

(** [members.filter(member => member.user.toString() !== userId)] *)
Definition without_member (userId : string) (r : room_doc) : list member :=
  List.filter (λ m, negb (String.eqb (Models.user m) userId)) (members r).

Definition set_members (ms : list member) (r : room_doc) : room_doc :=
  {| name := name r; members := ms; isActive := isActive r;
     lastMessage := lastMessage r |}.

(** [Room.findOne({_id: id, isActive: true})] *)
Definition Room_findOne_active (id : string) (d : database) : option room_doc :=
  match Rooms d !! id with
  | Some r => if isActive r then Some r else None
  | None => None
  end.

Definition managers : list string := ["admin"; "moderator"].

(** [Room.findOne({_id: id, 'members.user': userId,
      'members.role': {$in: ['admin', 'moderator']}, isActive: true})]:
    the two conditions on the [members] array are matched separately, so
    the document is selected when some entry has the user and some entry
    has one of the roles. *)
Definition Room_findOne_managed (id userId : string) (d : database)
  : option room_doc :=
  match Room_findOne_member id userId d with
  | Some r =>
      if existsb (λ m, bool_decide (role m ∈ managers)) (members r)
      then Some r else None
  | None => None
  end.

(** [User.findById(userId)] *)
Definition User_findById (userId : string) (d : database) : option user_doc :=
  Users d !! userId.

(** [room.save()] of a room read earlier. *)
Definition Room_save (id : string) (r : room_doc) (d : database) : database :=
  set_Rooms <[id := r]> d.

(** POST /api/rooms/:id/join *)
Definition join (userId id : string) (e : env) (d : database)
  : database * answer :=
  if rejects e 0%nat then (d, failed) else
  match Room_findOne_active id d with
  | None => (d, says 404 "Room not found")
  | Some r =>
      if has_member userId r
      then (d, says 400 "Already a member of this room")
      else
        let r' := set_members (members r ++ [Member userId "member"])%list r in
        if rejects e 1%nat then (d, failed) else
        let d1 := Room_save id r' d in
        if rejects e 2%nat then (d1, failed)
        else (d1, Answer 200 (Some "Successfully joined room") (Some (id, r')))
  end.

(** POST /api/rooms/:id/leave *)
Definition leave (userId id : string) (e : env) (d : database)
  : database * answer :=
  if rejects e 0%nat then (d, failed) else
  match Room_findOne_member id userId d with
  | None => (d, says 404 "Room not found")
  | Some r =>
      match find_member userId r with
      | None => (d, failed)
      | Some m =>
          if String.eqb (role m) "admin"
          then (d, says 400 "Admin cannot leave room. Transfer ownership first.")
          else
            let r' := set_members (without_member userId r) r in
            if rejects e 1%nat then (d, failed)
            else (Room_save id r' d, says 200 "Successfully left room")
      end
  end.

(** POST /api/rooms/:id/members with [userId] in the body *)
Definition add_member (reqUser id : string) (userId : option string) (e : env)
    (d : database) : database * answer :=
  match userId with
  | None => (d, invalid)
  | Some userId =>
      if String.eqb userId "" then (d, invalid) else
      if rejects e 0%nat then (d, failed) else
      match Room_findOne_managed id reqUser d with
      | None => (d, says 404 "Room not found or insufficient permissions")
      | Some r =>
          if rejects e 1%nat then (d, failed) else
          match User_findById userId d with
          | None => (d, says 404 "User not found")
          | Some _ =>
              if has_member userId r
              then (d, says 400 "User is already a member")
              else
                let r' := set_members (members r ++ [Member userId "member"])%list r in
                if rejects e 2%nat then (d, failed) else
                let d1 := Room_save id r' d in
                if rejects e 3%nat then (d1, failed)
                else (d1, Answer 200 (Some "User added to room successfully")
                                 (Some (id, r')))
          end
      end
  end.

(** DELETE /api/rooms/:id/members/:userId *)
Definition remove_member (reqUser id userId : string) (e : env) (d : database)
  : database * answer :=
  if rejects e 0%nat then (d, failed) else
  match Room_findOne_managed id reqUser d with
  | None => (d, says 404 "Room not found or insufficient permissions")
  | Some r =>
      if match find_member userId r with
         | Some m => String.eqb (role m) "admin"
         | None => false
         end
      then (d, says 400 "Cannot remove admin from room")
      else
        let r' := set_members (without_member userId r) r in
        if rejects e 1%nat then (d, failed)
        else (Room_save id r' d, says 200 "User removed from room successfully")
  end.

Inductive request :=
| Join (id : string)
| Leave (id : string)
| AddMember (id : string) (userId : option string)
| RemoveMember (id userId : string).

Definition route (reqUser : string) (r : request) (e : env) (d : database)
  : database * answer :=
  match r with
  | Join id => join reqUser id e d
  | Leave id => leave reqUser id e d
  | AddMember id u => add_member reqUser id u e d
  | RemoveMember id u => remove_member reqUser id u e d
  end.

Fixpoint serve (reqs : list (string * request * env)) (d : database) : database :=
  match reqs with
  | [] => d
  | (u, r, e) :: rest => serve rest (route u r e d).1
  end.


End RoomRoutes.

(* ===================================================================== *)
(** ** More of ChatRoom.js: typing bursts, attachments, uploadFiles *)
(* ===================================================================== *)

Module Composer.

(** The input changes at each of the times [ts], in order; a timeout that
    has come due fires before the change is handled. *)
Fixpoint keystrokes (ts : list Z) (c : chat) : chat * list action :=
  match ts with
  | [] => (c, [])
  | t :: rest =>
      let '(c1, o1) := elapse t c in
      let '(c2, o2) := handleTyping t c1 in
      let '(c3, o3) := keystrokes rest c2 in
      (c3, (o1 ++ o2 ++ o3)%list)
  end.

(** [l.filter((_, i) => keep(i))], counting from [i]. *)
Fixpoint filter_index {A} (keep : nat → bool) (i : nat) (l : list A) : list A :=
  match l with
  | [] => []
  | x :: l' =>
      if keep i then x :: filter_index keep (S i) l'
      else filter_index keep (S i) l'
  end.

(** [removeAttachment(index)]: [prev.filter((_, i) => i !== index)] *)
Definition removeAttachment {A} (index : Z) (prev : list A) : list A :=
  filter_index (λ i, negb (Z.of_nat i =? index)%Z) 0 prev.

(** State of the file dialog. *)
Record dialog := Dialog {
  attachments : list value;
  uploadProgress : Z;
  isUploading : bool;
  uploadError : string;
  showFileDialog : bool
}.

(** [handleFileSelect]: a non-empty selection replaces the attachments
    and opens the dialog. *)
Definition handleFileSelect (files : list value) (u : dialog) : dialog :=
  match files with
  | [] => u
  | _ => {| attachments := files; uploadProgress := uploadProgress u;
            isUploading := isUploading u; uploadError := uploadError u;
            showFileDialog := true |}
  end.

(** How POST /api/upload/multiple ended, with the last progress reported:
    the files of the response, or a failure with the message of the
    response body if it had one. *)
Inductive upload_result :=
| Uploaded (files : list value) (progress : Z)
| UploadFailed (message : option string) (progress : Z).

(** [uploadedFiles[0]?.fileType.startsWith('image/') ? 'image' : 'file'];
    [None] when it throws. *)
Definition file_messageType (files : list value) : option string :=
  match files with
  | [] => Some "file"
  | VUndef :: _ | VNull :: _ => Some "file"
  | f :: _ =>
      match prop "fileType" f with
      | Some (VStr ft) => Some (if String.prefix "image/" ft then "image" else "file")
      | _ => None
      end
  end.

(** [newMessage || 'Shared a file'] *)
Definition file_content (c : chat) : string :=
  if String.eqb (newMessage c) "" then "Shared a file" else newMessage c.

Definition file_messageData (c : chat) (files : list value) (ty : string)
    (t : Z) : value :=
  VObj [("content", VStr (file_content c));
        ("roomId", VStr (room_id c));
        ("sender", VObj (user c));
        ("timestamp", VNum t);
        ("attachments", VObj (imap (λ i f, (pretty i, f)) files));
        ("messageType", VStr ty)].

Definition file_body (c : chat) (files : list value) (ty : string) : post_body :=
  {| b_content := Some (file_content c); b_roomId := Some (room_id c);
     b_messageType := Some ty; b_attachments := Some files; b_replyTo := None |}.

(** [error.response?.data?.message || 'File upload failed'] *)
Definition error_text (message : option string) : string :=
  match message with
  | Some m => if String.eqb m "" then "File upload failed" else m
  | None => "File upload failed"
  end.

Definition body_message (r : response) : option string :=
  match json r with
  | BMessage m => Some m
  | BData m _ => Some m
  | _ => None
  end.

Definition failed_dialog (msg : option string) (progress : Z) (u : dialog) : dialog :=
  {| attachments := attachments u; uploadProgress := progress;
     isUploading := false; uploadError := error_text msg;
     showFileDialog := showFileDialog u |}.

Definition done_dialog : dialog :=
  {| attachments := []; uploadProgress := 0; isUploading := false;
     uploadError := ""; showFileDialog := false |}.

(** [uploadFiles] at client time [t], given how the upload ended. *)
Definition uploadFiles (c : chat) (u : dialog) (up : upload_result) (t : Z)
    (e : env) (d : database)
  : chat * dialog * database * option response * list action :=
  match attachments u with
  | [] => (c, u, d, None, [])
  | _ =>
      match up with
      | UploadFailed msg progress =>
          (c, failed_dialog msg progress u, d, None, [ConsoleError "File upload error:"])
      | Uploaded files progress =>
          match file_messageType files with
          | None =>
              (c, failed_dialog None progress u, d, None,
               [ConsoleError "File upload error:"])
          | Some ty =>
              let '(d', r) := post_message (account c) (file_body c files ty) e d in
              if resolves r then
                (set_newMessage "" c, done_dialog, d', Some r,
                 (sendMessage c (file_messageData c files ty t)
                  ++ sendTyping c (typing_data c false))%list)
              else
                (c, failed_dialog (body_message r) progress u, d', Some r,
                 [ConsoleError "File upload error:"])
          end
      end
  end.

End Composer.

(* ===================================================================== *)
(** ** The upload filter (routes/upload.js) *)
(* ===================================================================== *)

Module Upload.

(** [toLowerCase] on the letters A to Z; file names are byte strings. *)
Definition lower (a : ascii) : ascii :=
  let n := nat_of_ascii a in
  if (Nat.leb 65 n && Nat.leb n 90)%bool then ascii_of_nat (n + 32) else a.

Fixpoint toLowerCase (s : string) : string :=
  match s with
  | EmptyString => EmptyString
  | String a s' => String (lower a) (toLowerCase s')
  end.

(** Does [s] have [frag] somewhere in it? *)
Fixpoint contains (frag s : string) : bool :=
  (String.prefix frag s
   || match s with
      | EmptyString => false
      | String _ s' => contains frag s'
      end)%bool.

(** [/jpeg|jpg|png|gif|mp4|mp3|pdf|doc|docx|txt/] *)
Definition allowedTypes : list string :=
  ["jpeg"; "jpg"; "png"; "gif"; "mp4"; "mp3"; "pdf"; "doc"; "docx"; "txt"].

(** [allowedTypes.test(s)] *)
Definition test (s : string) : bool :=
  existsb (λ frag, contains frag s) allowedTypes.

(** The [fileFilter] of multer: accept when both the mimetype and the
    lower-cased original name pass the test. *)
Definition fileFilter (originalname mimetype : string) : bool :=
  (test mimetype && test (toLowerCase originalname))%bool.

End Upload.

(* ===================================================================== *)
(** ** Concrete scenarios *)
(* ===================================================================== *)

Module Scenario.

(** Room "general" exists with alice as its only member; bob has an
    account but is not a member. *)
Definition general_room : room_doc :=
  RoomDoc "General" [Member "alice" "admin"] true None.

Definition db0 : database :=
  Database ∅ {["general" := general_room]}
           {["alice" := UserDoc "alice" true; "bob" := UserDoc "bob" true]}.

(** Sockets A, B and C have joined "general". *)
Definition abc : adapter :=
  socket_join "C" "general"
    (socket_join "B" "general" (socket_join "A" "general" ∅)).

Definition s_abc : server := MkServer abc db0.


Definition hi : value :=
  VObj [("content", VStr "hi"); ("roomId", VStr "general");
        ("sender", VObj [("_id", VStr "alice"); ("username", VStr "alice")])].

Definition typing_as (uid uname : string) (b : bool) : value :=
  VObj [("roomId", VStr "general"); ("userId", VStr uid);
        ("username", VStr uname); ("isTyping", VBool b)].

(** No database call rejects. *)
Definition calm (t : Z) (id : string) : env := Env t id (λ _, false).

(** The [n]-th database call rejects. *)
Definition failing (n : nat) (t : Z) (id : string) : env :=
  Env t id (λ k, Nat.eqb k n).

Definition post_text (text : string) (re : option string) : request :=
  PostMessage (PostBody (Some text) (Some "general") (Some "text") None re).

(** alice posts a message, replies to it, then deletes the first one. *)
Definition posted : list (string * request * env) :=
  [("alice", post_text "original" None, calm 1 "mA");
   ("alice", post_text "a reply" (Some "mA"), calm 2 "mB")].

Definition reply_then_delete : list (string * request * env) :=
  (posted ++ [("alice", DeleteMessage "mA", calm 3 "unused")])%list.

Definition alice_chat : chat :=
  Chat (Some "A") "alice" [("_id", VStr "alice"); ("username", VStr "alice")]
       "general" "hi" false None [] [].

Definition bob_chat : chat :=
  Chat (Some "B") "bob" [("_id", VStr "bob"); ("username", VStr "bob")]
       "general" "" false None [] [].

End Scenario.

(* ===================================================================== *)
(** ** Predicates used to state what the routes keep *)
(* ===================================================================== *)

Module Invariants.

(** Oldest first. *)
Definition older_first (a b : listed) : Prop :=
  (createdAt (l_doc a) ≤ createdAt (l_doc b))%Z.


(** The fields of a message that are set when it is posted. *)
Definition same_origin (m m' : message) : Prop :=
  sender m' = sender m ∧ room m' = room m ∧ createdAt m' = createdAt m
  ∧ messageType m' = messageType m ∧ attachments m' = attachments m
  ∧ replyTo m' = replyTo m.


(** The times [ts] follow [t] without ever pausing for the length of the
    typing timeout. *)
Fixpoint burst (t : Z) (ts : list Z) : Prop :=
  match ts with
  | [] => True
  | t' :: rest => (t ≤ t' < t + typing_ttl)%Z ∧ burst t' rest
  end.

(** The last of the times [t :: ts]. *)
Definition last_time (t : Z) (ts : list Z) : Z := default t (last ts).

End Invariants.

(* ===================================================================== *)
(** ** More concrete scenarios *)
(* ===================================================================== *)

Module Cases.

(** alice has posted "original" (mA, at time 1) and a reply (mB, at 2). *)
Definition two_posts : database := Routes.serve Scenario.posted Scenario.db0.

(** Room "general" with alice as admin and bob and carol as members;
    dave has an account only. *)
Definition team : room_doc :=
  RoomDoc "General"
    [Member "alice" "admin"; Member "bob" "member"; Member "carol" "member"]
    true None.

(** A picture as POST /api/upload/multiple reports it, selected in an
    open file dialog. *)
Definition picture : value :=
  VObj [("filename", VStr "chat-app/p1"); ("originalName", VStr "cat.png");
        ("url", VStr "https://files.example/p1.png");
        ("fileType", VStr "image/png"); ("fileSize", VNum 2048)].

Definition picking : Composer.dialog :=
  Composer.Dialog [VStr "cat.png"] 0 false "" true.

Definition team_db : database :=
  Database ∅ {["general" := team]}
           {["alice" := UserDoc "alice" true; "bob" := UserDoc "bob" true;
             "carol" := UserDoc "carol" false; "dave" := UserDoc "dave" false]}.

End Cases.

(* ===================================================================== *)
(** ** Properties of the rooms *)
(* ===================================================================== *)

(** Closes a decidable goal over concrete data by evaluating its decision
    procedure. *)
Ltac decide_by_computation :=
  apply (bool_decide_unpack _); vm_compute; exact I.

Section Rooms.

Implicit Types (a : adapter) (sid c r : string).

Lemma sockets_in_join a sid r r' :
  sockets_in r' (socket_join sid r a) =
  if decide (r = r') then {[sid]} ∪ sockets_in r a else sockets_in r' a.
Proof.
  unfold socket_join, sockets_in at 1. rewrite lookup_insert.
  case_decide; done.
Qed.

Lemma sockets_in_leave a sid r r' :
  sockets_in r' (socket_leave sid r a) =
  if decide (r = r') then sockets_in r a ∖ {[sid]} else sockets_in r' a.
Proof.
  unfold socket_leave, sockets_in.
  destruct (a !! r) as [s|] eqn:Hr.
  - unfold drop_socket. case_decide as He.
    + rewrite lookup_delete. case_decide; simplify_eq/=; [by rewrite He | done].
    + rewrite lookup_insert. case_decide; simplify_eq/=; done.
  - case_decide; simplify_eq/=; [rewrite Hr; simpl; set_solver | done].
Qed.

Lemma sockets_in_leave_all a sid r :
  sockets_in r (socket_leave_all sid a) = sockets_in r a ∖ {[sid]}.
Proof.
  unfold socket_leave_all, sockets_in. rewrite lookup_omap.
  destruct (a !! r) as [s|]; simpl; [|set_solver].
  unfold drop_socket. case_decide as He; simpl; [by rewrite He | done].
Qed.

Lemma elem_of_socket_to_emit a sid r ev p (d : delivery) :
  d ∈ socket_to_emit sid r ev p a ↔
  ∃ c, d = Deliver c ev p ∧ c ∈ sockets_in r a ∧ c ≠ sid.
Proof.
  unfold socket_to_emit. rewrite list_elem_of_fmap.
  split.
  - intros (c & -> & Hc). exists c. set_solver.
  - intros (c & -> & Hc & Hne). exists c. set_solver.
Qed.



Lemma deliveries_Emit (l : list delivery) : deliveries (Emit <$> l) = l.
Proof. unfold deliveries. induction l as [|d l IH]; csimpl; [done | by rewrite IH]. Qed.



End Rooms.

Lemma socket_join_twice (a : adapter) (sid r : string) :
  socket_join sid r (socket_join sid r a) = socket_join sid r a.
Proof.
  unfold socket_join at 1. rewrite sockets_in_join.
  case_decide; [|done]. unfold socket_join. rewrite insert_insert_eq.
  f_equal. set_solver.
Qed.

Lemma socket_join_member (a : adapter) (sid r : string) :
  sid ∈ sockets_in r a → socket_join sid r a = a.
Proof.
  intros Hin. unfold socket_join. apply insert_id.
  unfold sockets_in in *. destruct (a !! r) as [s|]; simpl in *.
  - f_equal. set_solver.
  - set_solver.
Qed.

Lemma socket_leave_twice (a : adapter) (sid r : string) :
  socket_leave sid r (socket_leave sid r a) = socket_leave sid r a.
Proof.
  remember (socket_leave sid r a) as a' eqn:Ha'.
  unfold socket_leave in Ha'. destruct (a !! r) as [s|] eqn:Hr.
  - unfold drop_socket in Ha'. case_decide as He; subst a'.
    + unfold socket_leave. by rewrite lookup_delete_eq.
    + unfold socket_leave. rewrite lookup_insert_eq. unfold drop_socket.
      case_decide as He2; [exfalso; apply He; set_solver|].
      rewrite insert_insert_eq. f_equal. set_solver.
  - subst a'. unfold socket_leave. by rewrite Hr.
Qed.

Lemma socket_leave_absent (a : adapter) (sid r : string) :
  sid ∉ sockets_in r a → (∀ r', a !! r' ≠ Some ∅) → socket_leave sid r a = a.
Proof.
  intros Hnin Hne. unfold socket_leave, sockets_in in *.
  destruct (a !! r) as [s|] eqn:Hr; [|done]. simpl in Hnin.
  unfold drop_socket. case_decide as He.
  - exfalso. apply (Hne r). rewrite Hr. f_equal. set_solver.
  - apply insert_id. rewrite Hr. f_equal. set_solver.
Qed.

(* ===================================================================== *)
(** ** Fan-out of messages *)
(* ===================================================================== *)



(** The scenario of the design document: A, B and C connect and join
    "general", A sends "hi"; B and C get it once each, A does not. *)
Example general_scenario :
  snd <$> handle_all
            [("A", Connect); ("B", Connect); ("C", Connect);
             ("A", JoinRoom "general"); ("B", JoinRoom "general");
             ("C", JoinRoom "general"); ("A", SendMessage Scenario.hi)]
            (start Scenario.db0)
  = Some [Emit (Deliver "C" "receive_message" Scenario.hi);
          Emit (Deliver "B" "receive_message" Scenario.hi)].
Proof. vm_compute. reflexivity. Qed.

(** A and B join "dm1", B disconnects, A sends: nobody is left to deliver
    to, and the listener does not fail. *)
Example empty_audience_scenario :
  snd <$> handle_all
            [("A", Connect); ("B", Connect);
             ("A", JoinRoom "dm1"); ("B", JoinRoom "dm1"); ("B", Disconnect);
             ("A", SendMessage (VObj [("content", VStr "hello");
                                      ("roomId", VStr "dm1")]))]
            (start Scenario.db0)
  = Some [].
Proof. vm_compute. reflexivity. Qed.




(* ===================================================================== *)
(** ** Joining and leaving *)
(* ===================================================================== *)

(** C8: join_room and leave_room are idempotent.  A second join_room of
    the same room by the same socket leaves the rooms as the first left
    them, so the room has the same sockets and the same size; a second
    leave_room changes nothing either. *)
Theorem join_leave_idempotent (s : server) (c r : string) :
  (∃ s1 s2 out1 out2,
      join_room c r s = Some (s1, out1)
      ∧ join_room c r s1 = Some (s2, out2)
      ∧ s2 = s1
      ∧ size (sockets_in r (rooms s2)) = size (sockets_in r (rooms s1)))
  ∧ (∃ s1 s2 out1 out2,
      leave_room c r s = Some (s1, out1)
      ∧ leave_room c r s1 = Some (s2, out2)
      ∧ s2 = s1
      ∧ sockets_in r (rooms s2) = sockets_in r (rooms s1)).
Proof.
  split.
  - do 4 eexists. split; [reflexivity|]. split; [reflexivity|].
    assert (with_rooms (socket_join c r) (with_rooms (socket_join c r) s)
            = with_rooms (socket_join c r) s) as Heq.
    { unfold with_rooms; simpl. by rewrite socket_join_twice. }
    split; [exact Heq | by rewrite Heq].
  - do 4 eexists. split; [reflexivity|]. split; [reflexivity|].
    assert (with_rooms (socket_leave c r) (with_rooms (socket_leave c r) s)
            = with_rooms (socket_leave c r) s) as Heq.
    { unfold with_rooms; simpl. by rewrite socket_leave_twice. }
    split; [exact Heq | by rewrite Heq].
Qed.

(** C5, as the spec states it, fails: the database has no room "secret"
    and so nobody is a member of it, yet a socket X that connects and
    sends one join_room event is subscribed to "secret". *)
Lemma join_without_authorization :
  ∃ s, reachable Scenario.db0 s
       ∧ "X" ∈ sockets_in "secret" (rooms s)
       ∧ ∀ u, is_member u "secret" Scenario.db0 = false.
Proof.
  eexists. split; [|split].
  - eapply (reach_step _ _ "X" (JoinRoom "secret")); [|reflexivity].
    eapply (reach_step _ _ "X" Connect); [apply reach_start | reflexivity].
  - simpl. rewrite sockets_in_join. case_decide; [set_solver | done].
  - intros u. reflexivity.
Qed.

(** C5 (amended): join_room applies the join unconditionally.  The socket
    is in the room afterwards, the only other effect is a log line, and
    neither depends on the database: no membership record is consulted. *)
Theorem join_room_unconditional (s : server) (sid r : string) :
  ∃ s' line,
    join_room sid r s = Some (s', [Log line])
    ∧ sid ∈ sockets_in r (rooms s')
    ∧ db s' = db s
    ∧ ∀ d, join_room sid r (MkServer (rooms s) d)
           = Some (MkServer (rooms s') d, [Log line]).
Proof.
  do 2 eexists. split; [reflexivity|]. simpl. split; [|split; [done|]].
  - rewrite sockets_in_join. case_decide; [set_solver | done].
  - intros d. reflexivity.
Qed.

(* ===================================================================== *)
(** ** Disconnecting *)
(* ===================================================================== *)

(** C4, as the spec states it, fails: alice's client holds socket A; after
    A's disconnect she is still recorded as online. *)
Lemma disconnect_keeps_user_online :
  ∃ s', (fst <$> disconnect "A" Scenario.s_abc) = Some s'
        ∧ socket Scenario.alice_chat = Some "A"
        ∧ is_online "alice" (db Scenario.s_abc) = true
        ∧ is_online "alice" (db s') = true.
Proof. eexists. repeat split. Qed.

(** C4 (amended): when socket [c] disconnects it is taken out of every
    room, the other sockets stay where they were, and the listener only
    logs: the database, and with it every user's online flag, is left as
    it was. *)
Theorem disconnect_leaves_every_room (s : server) (c : string) :
  ∃ s' line,
    disconnect c s = Some (s', [Log line])
    ∧ (∀ r, c ∉ sockets_in r (rooms s'))
    ∧ (∀ r c', c' ≠ c → c' ∈ sockets_in r (rooms s') ↔ c' ∈ sockets_in r (rooms s))
    ∧ db s' = db s
    ∧ (∀ u, is_online u (db s') = is_online u (db s)).
Proof.
  do 2 eexists. split; [reflexivity|]. simpl. repeat split.
  - intros r. rewrite sockets_in_leave_all. set_solver.
  - rewrite sockets_in_leave_all. set_solver.
  - rewrite sockets_in_leave_all. set_solver.
Qed.

(* ===================================================================== *)
(** ** Typing events on the server *)
(* ===================================================================== *)

Lemma typing_inv (s s' : server) (sid : string) (data : value) (out : list effect) :
  typing sid data s = Some (s', out) →
  ∃ rv u n t,
    prop "roomId" data = Some rv ∧ prop "userId" data = Some u
    ∧ prop "username" data = Some n ∧ prop "isTyping" data = Some t
    ∧ s' = s
    ∧ out = Emit <$> socket_to_value_emit sid rv "user_typing"
                       (VObj [("userId", u); ("username", n); ("isTyping", t)])
                       (rooms s).
Proof.
  unfold typing, typing_payload. intros H.
  destruct (prop "roomId" data) as [rv|]; [|done].
  destruct (prop "userId" data) as [u|]; [|done].
  destruct (prop "username" data) as [n|]; [|done].
  destruct (prop "isTyping" data) as [t|]; [|done].
  simplify_eq. by exists rv, u, n, t.
Qed.

Lemma elem_of_socket_to_value_emit (a : adapter) (sid : string) (rv : value)
    (ev : string) (p : value) (d : delivery) :
  d ∈ socket_to_value_emit sid rv ev p a →
  ∃ r c, rv = VStr r ∧ d = Deliver c ev p ∧ c ∈ sockets_in r a ∧ c ≠ sid.
Proof.
  destruct rv; simpl; try (by intros ?%elem_of_nil).
  intros (c & ? & ? & ?)%elem_of_socket_to_emit. eauto 10.
Qed.



(* ===================================================================== *)
(** ** Who an event is attributed to *)
(* ===================================================================== *)

(** C6, as the spec states it, fails: two typing events on the same socket
    A that differ only in the identity fields of the payload reach B
    attributed to two different users. *)
Lemma payload_identity_is_believed :
  ∃ out1 out2,
    typing "A" (Scenario.typing_as "alice" "alice" true) Scenario.s_abc
      = Some (Scenario.s_abc, out1)
    ∧ typing "A" (Scenario.typing_as "mallory" "mallory" true) Scenario.s_abc
      = Some (Scenario.s_abc, out2)
    ∧ originator <$> deliveries out1 = [Some (VStr "alice"); Some (VStr "alice")]
    ∧ originator <$> deliveries out2 = [Some (VStr "mallory"); Some (VStr "mallory")].
Proof. do 2 eexists. repeat split; vm_compute; reflexivity. Qed.

(** C6 (amended): the user an outbound event is attributed to is the one
    named in the payload of the inbound event: a user_typing event
    carries the payload's userId and username, a receive_message event is
    the inbound payload itself (its sender field included).  The socket
    the event arrived on only decides who is left out of the audience. *)
Theorem originator_is_read_from_payload (s s' : server) (sid : string)
    (data : value) (out : list effect) (d : delivery) :
  d ∈ deliveries out →
  (typing sid data s = Some (s', out) →
     originator d = prop "userId" data
     ∧ prop "username" (payload d) = prop "username" data
     ∧ target d ≠ sid)
  ∧ (send_message sid data s = Some (s', out) →
     payload d = data
     ∧ originator d = prop "sender" data
     ∧ target d ≠ sid).
Proof.
  intros Hd. split.
  - intros (rv & u & n & t & Hr & Hu & Hn & Ht & -> & ->)%typing_inv.
    rewrite deliveries_Emit in Hd.
    apply elem_of_socket_to_value_emit in Hd as (r & c & -> & -> & Hc & Hne).
    unfold originator. simpl. by rewrite Hu, Hn.
  - unfold send_message. destruct (prop "roomId" data) as [rv|]; [|done].
    intros ?; simplify_eq. rewrite deliveries_Emit in Hd.
    apply elem_of_socket_to_value_emit in Hd as (r & c & -> & -> & Hc & Hne).
    unfold originator. simpl. done.
Qed.

Lemma originator_is_read_from_payload_witness :
  let data := Scenario.typing_as "mallory" "mallory" true in
  let d := Deliver "B" "user_typing"
             (VObj [("userId", VStr "mallory"); ("username", VStr "mallory");
                    ("isTyping", VBool true)]) in
  (typing "A" data Scenario.s_abc
     = Some (Scenario.s_abc, [Emit (Deliver "C" "user_typing" (payload d)); Emit d]))
  ∧ originator d = prop "userId" data
  ∧ prop "username" (payload d) = prop "username" data
  ∧ target d ≠ "A".
Proof.
  intros data d.
  assert (typing "A" data Scenario.s_abc
          = Some (Scenario.s_abc,
                  [Emit (Deliver "C" "user_typing" (payload d)); Emit d])) as Hrun.
  { vm_compute. reflexivity. }
  split; [exact Hrun|].
  refine (proj1 (originator_is_read_from_payload Scenario.s_abc Scenario.s_abc "A"
                   data _ d _) Hrun).
  vm_compute. apply list_elem_of_further, list_elem_of_here.
Defined.

(* ===================================================================== *)
(** ** Sending a message: POST first, socket second *)
(* ===================================================================== *)

Lemma Messages_set_lastMessage (roomId id : string) (d : database) :
  Messages (Room_set_lastMessage roomId id d) = Messages d.
Proof. reflexivity. Qed.

Lemma save_new_Some (id : string) (m : message) (d d1 : database) :
  save_new id m d = Some d1 →
  Messages d !! id = None ∧ Messages d1 = <[id := m]> (Messages d)
  ∧ Rooms d1 = Rooms d ∧ Users d1 = Users d.
Proof.
  unfold save_new. destruct (valid_message m); [|done].
  destruct (Messages d !! id) eqn:Hid; [done|]. intros ?; simplify_eq. done.
Qed.

(** What an answer of POST /api/messages means for the Message
    collection. *)
Lemma post_message_outcome (userId : string) (b : post_body) (e : env)
    (d : database) :
  let d' := (post_message userId b e d).1 in
  let r := (post_message userId b e d).2 in
  (resolves r = true ∧ status r = 201%nat
   ∧ rejects e 0%nat = false ∧ rejects e 1%nat = false
   ∧ Messages d !! new_id e = None
   ∧ ∃ c, validate_post b = Some c
       ∧ Messages d' = <[new_id e :=
            new_Message c userId (default "" (b_roomId b))
              (default "text" (b_messageType b)) (default [] (b_attachments b))
              (b_replyTo b) (now e)]> (Messages d))
  ∨ (resolves r = false ∧ (400 ≤ status r)%nat).
Proof.
  unfold post_message.
  destruct (validate_post b) as [c|]; [|right; split; [done | simpl; lia]].
  destruct (rejects e 0%nat) eqn:R0; [right; split; [done | simpl; lia]|].
  destruct (Room_findOne_member _ _ d); [|right; split; [done | simpl; lia]].
  destruct (falsy_string c && _)%bool; [right; split; [done | simpl; lia]|].
  destruct (rejects e 1%nat) eqn:R1; [right; split; [done | simpl; lia]|].
  destruct (save_new _ _ d) as [d1|] eqn:Hs; [|right; split; [done | simpl; lia]].
  apply save_new_Some in Hs as (Hfree & Hm & _ & _).
  destruct (rejects e 2%nat || _ || _)%bool; [right; split; [done | simpl; lia]|].
  left. simpl. repeat split; try done. exists c. by rewrite Hm.
Qed.

Lemma validate_post_Some (b : post_body) (c : option string) :
  validate_post b = Some c → c = trim <$> b_content b.
Proof.
  unfold validate_post. destruct (_ && _ && _)%bool; [|done]. congruence.
Qed.

Lemma deliveries_app (l1 l2 : list effect) :
  deliveries (l1 ++ l2) = (deliveries l1 ++ deliveries l2)%list.
Proof. unfold deliveries. apply omap_app. Qed.

(** C3, as the spec states it, fails: alice's "hi" is stored under the id
    m1 and then delivered to B, but the delivered object is the one the
    client built before the POST; it has the keys content, roomId, sender
    and timestamp, and no id. *)
Lemma delivered_message_lacks_stored_id :
  ∃ r d,
    send_flow Scenario.alice_chat 5 (Scenario.calm 1000 "m1") Scenario.s_abc = Some r
    ∧ is_Some (Messages (db (server_after r)) !! "m1")
    ∧ d ∈ deliveries (effects r)
    ∧ target d = "B" ∧ event d = "receive_message"
    ∧ keys (payload d) = ["content"; "roomId"; "sender"; "timestamp"]
    ∧ prop "_id" (payload d) = Some VUndef.
Proof.
  eexists. eexists (Deliver "B" "receive_message" _).
  split; [vm_compute; reflexivity|].
  split; [by eexists; vm_compute|].
  split; [vm_compute; apply list_elem_of_further, list_elem_of_here|].
  repeat split.
Qed.

Lemma relay_send (c : chat) (md td : value) (s : server) :
  is_Some (prop "roomId" md) →
  is_Some (prop "roomId" td) → is_Some (typing_payload td) →
  ∃ out,
    relay (sendMessage c md ++ sendTyping c td)%list s = Some (s, out)
    ∧ ∀ d, d ∈ deliveries out →
           Some (target d) ≠ socket c
           ∧ (event d = "receive_message" ∧ payload d = md
              ∨ event d = "user_typing").
Proof.
  intros [rv Hrv] [rt Hrt] [p Hp].
  unfold sendMessage, sendTyping, emit_if_connected.
  destruct (socket c) as [sid|]; simpl.
  - unfold receive; simpl. unfold send_message, typing. rewrite Hrv, Hrt, Hp.
    eexists. split; [reflexivity|].
    intros d Hd. rewrite app_nil_r, deliveries_app, !deliveries_Emit in Hd.
    apply elem_of_app in Hd as [Hd|Hd];
      apply elem_of_socket_to_value_emit in Hd as (r & x & -> & -> & Hx & Hne);
      simpl; split; try congruence; auto.
  - eexists. split; [reflexivity|]. intros d Hd. by apply elem_of_nil in Hd.
Qed.

(** When the save is rejected alice's client gets a 500, logs it, and
    nothing reaches the socket. *)
Example rejected_save_is_not_sent :
  (λ r, (status <$> answer r, actions r, effects r,
         Messages (db (server_after r)) !! "m1"))
    <$> send_flow Scenario.alice_chat 5 (Scenario.failing 1 1000 "m1") Scenario.s_abc
  = Some (Some 500%nat, [ConsoleError "Error sending message:"], [], None).
Proof. vm_compute. reflexivity. Qed.

(** C3 (amended): pressing send always completes, and whenever it makes
    some socket receive anything, the POST was answered 201 and the
    message was stored under a fresh id before the socket events were
    handled: persistence comes first.  The receive_message event carries
    the object the client built (content, roomId, sender, timestamp), which
    has no id.  When the POST is not answered with a 2xx status, which
    includes every case where the save is rejected, nothing is emitted on
    the socket and nothing is delivered; the client is left as it was and
    logs the error. *)
Theorem message_is_stored_before_fanout (c : chat) (t : Z) (e : env) (s : server) :
  ∃ r,
    send_flow c t e s = Some r
    ∧ rooms (server_after r) = rooms s
    ∧ (∀ d, d ∈ deliveries (effects r) →
         (∃ resp, answer r = Some resp ∧ status resp = 201%nat)
         ∧ Messages (db s) !! new_id e = None
         ∧ Messages (db (server_after r)) !! new_id e
           = Some (new_Message (Some (trim (newMessage c))) (account c)
                     (room_id c) "text" [] None (now e))
         ∧ Some (target d) ≠ socket c
         ∧ (event d = "receive_message" →
              payload d = messageData c t ∧ prop "_id" (payload d) = Some VUndef))
    ∧ (∀ resp, answer r = Some resp → resolves resp = false →
         effects r = [] ∧ actions r = [ConsoleError "Error sending message:"]
         ∧ client_after r = c ∧ (400 ≤ status resp)%nat)
    ∧ (rejects e 1%nat = true → effects r = []).
Proof.
  unfold send_flow, handleSendMessage.
  destruct (nothing_to_send c).
  { eexists. split; [reflexivity|]. simpl. split; [done|].
    split; [|split]; [|done|done].
    intros d Hd. by apply elem_of_nil in Hd. }
  pose proof (post_message_outcome (account c) (text_body c) e (db s)) as Hpost.
  destruct (post_message (account c) (text_body c) e (db s)) as [d' resp].
  simpl in Hpost.
  destruct Hpost as [(Hok & H201 & R0 & R1 & Hfree & cv & Hval & Hm) | (Hbad & Hst)].
  - rewrite Hok.
    destruct (relay_send c (messageData c t) (typing_data c false)
                {| rooms := rooms s; db := d' |}) as (out & Hrelay & Hout);
      [by eexists | by eexists | by eexists |].
    rewrite Hrelay. eexists. split; [reflexivity|]. simpl.
    split; [done|]. split; [|split].
    + intros d Hd. destruct (Hout d Hd) as [Hne Hev].
      split; [by exists resp|]. split; [done|]. split.
      { rewrite Hm, lookup_insert_eq. by apply validate_post_Some in Hval as ->. }
      split; [done|]. intros Hrecv.
      destruct Hev as [[_ ->] | Hty]; [done | congruence].
    + intros resp' ? Hbad. simplify_eq. congruence.
    + congruence.
  - rewrite Hbad. simpl. eexists. split; [reflexivity|]. simpl.
    split; [done|]. split; [|split].
    + intros d Hd. by apply elem_of_nil in Hd.
    + intros resp' ? _. by simplify_eq.
    + done.
Qed.

(* ===================================================================== *)
(** ** Soft delete *)
(* ===================================================================== *)

Section SoftDelete.

Implicit Types (d : database) (m : message) (id userId : string) (e : env).

Lemma Message_findOne_Some id d m :
  Message_findOne id d = Some m ↔ Messages d !! id = Some m ∧ isDeleted m = false.
Proof.
  unfold Message_findOne. destruct (Messages d !! id) as [m'|]; [|by split; [|intros []]].
  destruct (isDeleted m') eqn:Hdel.
  - split; [done|]. intros [? ?]. congruence.
  - split; [by intros [= ->] | intros [? _]; congruence].
Qed.

Lemma Message_findOne_own_Some id userId d m :
  Message_findOne_own id userId d = Some m ↔
  Messages d !! id = Some m ∧ isDeleted m = false ∧ sender m = userId.
Proof.
  unfold Message_findOne_own.
  destruct (Message_findOne id d) as [m'|] eqn:Hf.
  - apply Message_findOne_Some in Hf as [Hl Hd].
    destruct (String.eqb_spec (sender m') userId) as [Hs|Hs].
    + split; [by intros [= ->] | intros (? & _ & _); congruence].
    + split; [done|]. intros (? & _ & ?). congruence.
  - split; [done|]. intros (Hl & Hd & _).
    assert (Message_findOne id d = Some m) by (by apply Message_findOne_Some).
    congruence.
Qed.

Lemma save_existing_Some id m d d1 :
  save_existing id m d = Some d1 → Messages d1 = <[id := m]> (Messages d).
Proof. unfold save_existing. destruct (valid_message m); [|done]. by intros [= <-]. Qed.

(** Writing a document found by a query that skips deleted messages does
    not touch a deleted one. *)
Lemma save_found_keeps_deleted id id' m m' d d1 :
  marked_deleted id d →
  Messages d !! id' = Some m → isDeleted m = false →
  save_existing id' m' d = Some d1 →
  marked_deleted id d1.
Proof.
  intros (m0 & Hm0 & Hdel) Hm Hnd Hs.
  apply save_existing_Some in Hs. exists m0. split; [|done].
  rewrite Hs, lookup_insert_ne; [done|]. intros ->. congruence.
Qed.

Lemma route_keeps_deleted userId (r : request) e d id :
  marked_deleted id d → marked_deleted id (route userId r e d).1.
Proof.
  intros Hdel. destruct r as [roomId page limit|b|id' c|id'|id' em|id' em]; simpl.
  - done.
  - unfold post_message.
    repeat (first [ done | case_match ]); simpl; try done.
    all: match goal with H : save_new _ _ _ = Some _ |- _ =>
           apply save_new_Some in H as (Hfree & Hm & _ & _) end.
    all: destruct Hdel as (m0 & Hm0 & Hd0); exists m0; split; [|done].
    all: rewrite ?Messages_set_lastMessage, Hm, lookup_insert_ne; [done|].
    all: intros <-; congruence.
  - unfold put_message.
    repeat (first [ done | case_match ]); simpl; try done.
    all: match goal with H : Message_findOne_own _ _ _ = Some _ |- _ =>
           apply Message_findOne_own_Some in H as (? & ? & ?) end.
    all: by eapply save_found_keeps_deleted.
  - unfold delete_message.
    repeat (first [ done | case_match ]); simpl; try done.
    all: match goal with H : Message_findOne_own _ _ _ = Some _ |- _ =>
           apply Message_findOne_own_Some in H as (? & ? & ?) end.
    all: by eapply save_found_keeps_deleted.
  - unfold add_reaction.
    repeat (first [ done | case_match ]); simpl; try done.
    all: match goal with H : Message_findOne _ _ = Some _ |- _ =>
           apply Message_findOne_Some in H as (? & ?) end.
    all: by eapply save_found_keeps_deleted.
  - unfold remove_reaction.
    repeat (first [ done | case_match ]); simpl; try done.
    all: match goal with H : Message_findOne _ _ = Some _ |- _ =>
           apply Message_findOne_Some in H as (? & ?) end.
    all: by eapply save_found_keeps_deleted.
Qed.

Lemma serve_keeps_deleted (reqs : list (string * request * env)) d id :
  marked_deleted id d → marked_deleted id (serve reqs d).
Proof.
  revert d. induction reqs as [|[[u r] e] reqs IH]; intros d Hdel; simpl; [done|].
  apply IH. by apply route_keeps_deleted.
Qed.

(** Every message GET /api/messages/:roomId lists is a stored message of
    that room that is not marked deleted. *)
Lemma get_messages_lists_live userId (roomId : string) (page limit : option Z)
    e d (l : listed) :
  l ∈ returned (get_messages userId roomId page limit e d) →
  Messages d !! l_id l = Some (l_doc l)
  ∧ isDeleted (l_doc l) = false ∧ room (l_doc l) = roomId.
Proof.
  unfold get_messages.
  destruct (rejects e 0%nat); [by intros ?%elem_of_nil|].
  destruct (Room_findOne_member roomId userId d); [|by intros ?%elem_of_nil].
  destruct (rejects e 1%nat); [by intros ?%elem_of_nil|].
  destruct (Message_find_page _ _ _ d) as [ms|] eqn:Hpage;
    [|by intros ?%elem_of_nil].
  destruct (rejects e 2%nat); [by intros ?%elem_of_nil|].
  unfold returned; simpl.
  unfold Message_find_page in Hpage. case_match; [done|]. simplify_eq.
  rewrite elem_of_reverse, list_elem_of_fmap. intros ([i m] & -> & Hin). simpl.
  assert ((i, m) ∈ List.filter (in_room_not_deleted roomId)
                      (map_to_list (Messages d))) as Hf.
  { rewrite <- (merge_sort_Permutation newer_first).
    eapply subseteq_drop. unfold limit_to in Hin.
    case_match; [exact Hin | by eapply subseteq_take]. }
  apply list_elem_of_In, filter_In in Hf as [Hl Hp].
  apply list_elem_of_In, elem_of_map_to_list in Hl.
  unfold in_room_not_deleted in Hp. simpl in Hp.
  apply andb_true_iff in Hp as [Hroom Hnd].
  apply String.eqb_eq in Hroom. apply negb_true_iff in Hnd. done.
Qed.

End SoftDelete.

(** C10, as stated, fails: after alice deletes mA, GET on the room still
    answers with mA's record, as the populated replyTo of the reply mB. *)
Lemma deleted_message_returned_as_replyTo :
  let d := serve Scenario.reply_then_delete Scenario.db0 in
  let r := get_messages "alice" "general" None None (Scenario.calm 4 "unused") d in
  marked_deleted "mA" d
  ∧ status r = 200%nat
  ∧ returned_ids r = ["mB"]
  ∧ quoted_ids r = ["mA"]
  ∧ ∃ l m, l ∈ returned r ∧ l_replyTo l = Some ("mA", m) ∧ isDeleted m = true.
Proof.
  intros d r. split; [|split; [|split; [|split]]].
  - eexists. split; vm_compute; reflexivity.
  - vm_compute. reflexivity.
  - vm_compute. reflexivity.
  - vm_compute. reflexivity.
  - do 2 eexists. split; [|split].
    + vm_compute. apply list_elem_of_here.
    + reflexivity.
    + reflexivity.
Qed.

(** C10 (amended): a DELETE answered 200 was made by the sender of a
    stored, not yet deleted message; the record stays in the collection
    with isDeleted true, deletedAt set to the time of the request and the
    content replaced by 'This message was deleted', and no other message
    changes.  From then on, whatever message requests are served in
    between, GET /api/messages/:roomId never lists that message among its
    messages: every message it lists has isDeleted false. *)
Theorem soft_delete_unlists_message (userId id : string) (e : env) (d : database) :
  status (delete_message userId id e d).2 = 200%nat →
  ∃ m,
    Messages d !! id = Some m ∧ sender m = userId ∧ isDeleted m = false
    ∧ let d' := (delete_message userId id e d).1 in
      let m' := soft_deleted m (now e) in
      Messages d' !! id = Some m'
      ∧ isDeleted m' = true ∧ deletedAt m' = Some (now e)
      ∧ content m' = Some "This message was deleted"
      ∧ (∀ id', id' ≠ id → Messages d' !! id' = Messages d !! id')
      ∧ ∀ reqs u roomId page limit e',
          let r := get_messages u roomId page limit e' (serve reqs d') in
          (id ∉ returned_ids r) ∧ ∀ l, l ∈ returned r → isDeleted (l_doc l) = false.
Proof.
  unfold delete_message.
  destruct (rejects e 0%nat); [done|].
  destruct (Message_findOne_own id userId d) as [m|] eqn:Hfind; [|done].
  destruct (rejects e 1%nat); [done|].
  destruct (save_existing id (soft_deleted m (now e)) d) as [d1|] eqn:Hsave; [|done].
  intros _. simpl.
  apply Message_findOne_own_Some in Hfind as (Hm & Hnd & Hs).
  apply save_existing_Some in Hsave.
  exists m. repeat split; try done.
  - by rewrite Hsave, lookup_insert_eq.
  - intros id' Hne. by rewrite Hsave, lookup_insert_ne.
  - intros Hin. apply list_elem_of_fmap in Hin as (l & -> & Hl).
    apply get_messages_lists_live in Hl as (Hlm & Hlive & _).
    assert (marked_deleted (l_id l) (serve reqs d1)) as (m0 & Hm0 & Hdel).
    { apply serve_keeps_deleted. exists (soft_deleted m (now e)).
      split; [|reflexivity]. by rewrite Hsave, lookup_insert_eq. }
    congruence.
  - intros l Hl. by apply get_messages_lists_live in Hl as (_ & ? & _).
Qed.

Lemma soft_delete_unlists_message_witness :
  let d := serve Scenario.posted Scenario.db0 in
  let e := Scenario.calm 3 "unused" in
  ∃ m,
    Messages d !! "mA" = Some m ∧ sender m = "alice" ∧ isDeleted m = false
    ∧ let d' := (delete_message "alice" "mA" e d).1 in
      let m' := soft_deleted m (now e) in
      Messages d' !! "mA" = Some m'
      ∧ isDeleted m' = true ∧ deletedAt m' = Some (now e)
      ∧ content m' = Some "This message was deleted"
      ∧ (∀ id', id' ≠ "mA" → Messages d' !! id' = Messages d !! id')
      ∧ ∀ reqs u roomId page limit e',
          let r := get_messages u roomId page limit e' (serve reqs d') in
          ("mA" ∉ returned_ids r) ∧ ∀ l, l ∈ returned r → isDeleted (l_doc l) = false.
Proof.
  intros d e. apply (soft_delete_unlists_message "alice" "mA" e d).
  vm_compute. reflexivity.
Defined.

(* ===================================================================== *)
(** ** The typing indicator *)
(* ===================================================================== *)

Section TypingIndicator.

Implicit Types (c v w : chat) (s : server) (uid data : value).






End TypingIndicator.

(** The listener does work on an event that names its room: this one puts
    alice on bob's list. *)
Example accepted_true_is_shown :
  typingUsers <$> on_user_typing (Scenario.typing_as "alice" "alice" true)
                                 Scenario.bob_chat
  = Some [Scenario.typing_as "alice" "alice" true].
Proof. reflexivity. Qed.



(* ===================================================================== *)
(** ** More on the socket listeners *)
(* ===================================================================== *)

(** Settles a goal comparing two membership tests. *)
Ltac settle_membership :=
  first [ apply bool_decide_ext; set_solver
        | apply bool_decide_eq_true_2; set_solver
        | apply bool_decide_eq_false_2; set_solver ].

Section Listeners.

Implicit Types (s : server) (c sid r : string) (data : value).

Lemma send_message_Some sid data s s' (out : list effect) :
  send_message sid data s = Some (s', out) →
  ∃ rv, prop "roomId" data = Some rv ∧ s' = s
        ∧ out = Emit <$> socket_to_value_emit sid rv "receive_message" data (rooms s).
Proof.
  unfold send_message. destruct (prop "roomId" data) as [rv|]; [|done].
  intros [= <- <-]. by exists rv.
Qed.

(** What one handled event does to the rooms of a socket: nothing, unless
    it is that socket's own join, leave, connection or disconnect. *)
Lemma handle_membership sid (e : inbound) s s' (out : list effect) c r :
  handle sid e s = Some (s', out) →
  bool_decide (c ∈ sockets_in r (rooms s'))
  = default (bool_decide (c ∈ sockets_in r (rooms s)))
            (Traces.verdict c r (sid, e)).
Proof.
  unfold Traces.verdict. simpl.
  destruct e as [|r'|r'|data|data|]; simpl.
  - intros [= <- <-]. simpl. rewrite sockets_in_join.
    destruct (String.eqb_spec sid c) as [->|Hne];
      [destruct (String.eqb_spec r c) as [->|Hr]|]; simpl;
      case_decide; subst; try done; settle_membership.
  - intros [= <- <-]. simpl. rewrite sockets_in_join.
    destruct (String.eqb_spec sid c) as [->|Hne];
      [destruct (String.eqb_spec r' r) as [->|Hr]|]; simpl;
      case_decide; subst; try done; settle_membership.
  - intros [= <- <-]. simpl. rewrite sockets_in_leave.
    destruct (String.eqb_spec sid c) as [->|Hne];
      [destruct (String.eqb_spec r' r) as [->|Hr]|]; simpl;
      case_decide; subst; try done; settle_membership.
  - intros (rv & _ & -> & _)%send_message_Some. by destruct (String.eqb sid c).
  - intros (rv & u & n & t & _ & _ & _ & _ & -> & _)%typing_inv.
    by destruct (String.eqb sid c).
  - intros [= <- <-]. simpl. rewrite sockets_in_leave_all.
    destruct (String.eqb_spec sid c) as [->|Hne]; simpl; settle_membership.
Qed.

Lemma after_membership (evs : list (string * inbound)) s0 s c r :
  Traces.after evs s0 = Some s →
  bool_decide (c ∈ sockets_in r (rooms s))
  = Traces.last_verdict c r (bool_decide (c ∈ sockets_in r (rooms s0))) evs.
Proof.
  revert s0. induction evs as [|[sid e] evs IH]; intros s0; simpl.
  - by intros [= ->].
  - destruct (handle sid e s0) as [[s1 out]|] eqn:Hh; [|done].
    intros Hrest. rewrite (IH _ Hrest). unfold Traces.last_verdict. simpl.
    by rewrite (handle_membership _ _ _ _ _ c r Hh).
Qed.

(** Everything a listener emits goes to a socket that is in some room. *)
Lemma handle_audience sid (e : inbound) s s' (out : list effect) (d : delivery) :
  handle sid e s = Some (s', out) → d ∈ deliveries out →
  ∃ r, target d ∈ sockets_in r (rooms s) ∧ target d ≠ sid.
Proof.
  destruct e as [|r'|r'|data|data|]; simpl.
  1-3, 6: by intros [= <- <-] ?%elem_of_nil.
  - intros (rv & _ & -> & ->)%send_message_Some. rewrite deliveries_Emit.
    intros (r & x & -> & -> & Hx & Hne)%elem_of_socket_to_value_emit. eauto.
  - intros (rv & u & n & t & _ & _ & _ & _ & -> & ->)%typing_inv.
    rewrite deliveries_Emit.
    intros (r & x & -> & -> & Hx & Hne)%elem_of_socket_to_value_emit. eauto.
Qed.

End Listeners.

(** X1: starting from a server with empty rooms, after any sequence of
    handled events a socket is in a room exactly when its last event about
    that room was a join (or, for the room named by its own id, its
    connection): a later leave_room of that room or a disconnect takes it
    out, and events of other sockets never matter. *)
Theorem membership_follows_last_event (d : database)
    (evs : list (string * inbound)) (s : server) (c r : string) :
  Traces.after evs (start d) = Some s →
  c ∈ sockets_in r (rooms s) ↔ Traces.last_verdict c r false evs = true.
Proof.
  intros Hrun. pose proof (after_membership evs (start d) s c r Hrun) as Hm.
  assert (∀ dec, @bool_decide (c ∈ sockets_in r (rooms (start d))) dec = false)
    as Hempty.
  { intros dec. apply bool_decide_eq_false_2. unfold sockets_in. simpl.
    rewrite lookup_empty. set_solver. }
  rewrite Hempty in Hm. rewrite <- Hm. symmetry. apply bool_decide_eq_true.
Qed.

Lemma membership_follows_last_event_witness :
  ∃ s,
    Traces.after [("A", Connect); ("A", JoinRoom "general");
                  ("B", JoinRoom "general"); ("A", LeaveRoom "general");
                  ("B", SendMessage Scenario.hi)]
                 (start Scenario.db0) = Some s
    ∧ ("A" ∉ sockets_in "general" (rooms s))
    ∧ "B" ∈ sockets_in "general" (rooms s).
Proof.
  eexists. split; [vm_compute; reflexivity|].
  split.
  - intros Hin.
    apply (membership_follows_last_event Scenario.db0
             [("A", Connect); ("A", JoinRoom "general");
              ("B", JoinRoom "general"); ("A", LeaveRoom "general");
              ("B", SendMessage Scenario.hi)] _ "A" "general") in Hin;
      [discriminate Hin | vm_compute; reflexivity].
  - decide_by_computation.
Defined.

(** X2: an event handled for one socket leaves every other socket in
    exactly the rooms it was in, and leaves the database alone. *)
Theorem other_sockets_untouched (sid : string) (e : inbound) (s s' : server)
    (out : list effect) (c r : string) :
  handle sid e s = Some (s', out) → c ≠ sid →
  (c ∈ sockets_in r (rooms s') ↔ c ∈ sockets_in r (rooms s)) ∧ db s' = db s.
Proof.
  intros Hh Hne. split.
  - pose proof (handle_membership sid e s s' out c r Hh) as Hm.
    unfold Traces.verdict in Hm. simpl in Hm.
    destruct (String.eqb_spec sid c) as [->|_]; [done|]. simpl in Hm.
    rewrite <- (bool_decide_eq_true (c ∈ sockets_in r (rooms s'))), Hm.
    apply bool_decide_eq_true.
  - destruct e; simpl in Hh; try by injection Hh as <- <-.
    + by apply send_message_Some in Hh as (? & _ & -> & _).
    + by apply typing_inv in Hh as (? & ? & ? & ? & _ & _ & _ & _ & -> & _).
Qed.

Lemma other_sockets_untouched_witness :
  ∃ s', disconnect "A" Scenario.s_abc = Some (s', [Log "User disconnected: A"])
        ∧ ("B" ∈ sockets_in "general" (rooms s')
           ↔ "B" ∈ sockets_in "general" (rooms Scenario.s_abc))
        ∧ db s' = db Scenario.s_abc.
Proof.
  eexists. split; [reflexivity|].
  apply (other_sockets_untouched "A" Disconnect Scenario.s_abc _
           [Log "User disconnected: A"] "B" "general"); [reflexivity | done].
Defined.


(** X4: once a socket has disconnected, whatever event the server handles
    next, for whichever socket, delivers nothing to it. *)
Theorem nothing_delivered_after_disconnect (c sid : string) (e : inbound)
    (s s1 s2 : server) (o1 out : list effect) :
  disconnect c s = Some (s1, o1) →
  handle sid e s1 = Some (s2, out) →
  c ∉ audience out.
Proof.
  intros [= <- <-] Hh Hin. unfold audience in Hin.
  apply elem_of_list_to_set, list_elem_of_fmap in Hin as (d & -> & Hd).
  destruct (handle_audience _ _ _ _ _ _ Hh Hd) as (r & Hr & _).
  simpl in Hr. rewrite sockets_in_leave_all in Hr. set_solver.
Qed.

Lemma nothing_delivered_after_disconnect_witness :
  ∃ s1 out,
    disconnect "B" Scenario.s_abc = Some (s1, [Log "User disconnected: B"])
    ∧ handle "A" (SendMessage Scenario.hi) s1 = Some (s1, out)
    ∧ out = [Emit (Deliver "C" "receive_message" Scenario.hi)]
    ∧ "B" ∉ audience out.
Proof.
  do 2 eexists. split; [reflexivity|]. split; [vm_compute; reflexivity|].
  split; [reflexivity|].
  eapply (nothing_delivered_after_disconnect "B" "A" (SendMessage Scenario.hi)
            Scenario.s_abc); [reflexivity | vm_compute; reflexivity].
Defined.

(** X5: in terms of who is in which room, a join_room event followed by
    a leave_room event of the same room on the same socket amounts to the
    leave_room alone, and a leave_room followed by a join_room to the
    join_room alone. *)
Theorem join_leave_cancel (s : server) (c r r' : string) :
  (sockets_in r' ∘ rooms <$> Traces.after [(c, JoinRoom r); (c, LeaveRoom r)] s)
  = (sockets_in r' ∘ rooms <$> Traces.after [(c, LeaveRoom r)] s)
  ∧ (sockets_in r' ∘ rooms <$> Traces.after [(c, LeaveRoom r); (c, JoinRoom r)] s)
    = (sockets_in r' ∘ rooms <$> Traces.after [(c, JoinRoom r)] s).
Proof.
  simpl. rewrite !sockets_in_leave, !sockets_in_join, !sockets_in_leave.
  rewrite !(decide_True (P := r = r)) by done.
  split; f_equal; case_decide; try done; subst;
    apply set_eq; intros x; destruct (decide (x = c)); set_solver.
Qed.

(* ===================================================================== *)
(** ** More on the message routes *)
(* ===================================================================== *)

Section Listing.

Implicit Types (d : database) (m : message) (id userId roomId : string) (e : env).

Lemma newer_first_total : Total newer_first.
Proof. intros a b. unfold newer_first. lia. Qed.

Lemma newer_first_trans : Transitive newer_first.
Proof. intros a b c. unfold newer_first. lia. Qed.

Lemma StronglySorted_reverse {A} (R : relation A) (l : list A) :
  StronglySorted R l → StronglySorted (flip R) (reverse l).
Proof.
  induction 1 as [|x l Hl IH Hall]; [constructor|].
  rewrite reverse_cons. apply StronglySorted_app_2; [|done|repeat constructor].
  intros y z Hy ->%list_elem_of_singleton. rewrite elem_of_reverse in Hy.
  rewrite Forall_forall in Hall. by apply Hall.
Qed.

Lemma StronglySorted_limit_drop (n : Z) (k : nat) (l : list (string * message)) :
  StronglySorted newer_first l →
  StronglySorted newer_first (limit_to n (drop k l)).
Proof.
  intros Hl.
  assert (StronglySorted newer_first (drop k l)) as Hd.
  { rewrite <- (take_drop k l) in Hl. by apply StronglySorted_app_1_r in Hl. }
  unfold limit_to. case_match; [done|].
  rewrite <- (take_drop (Z.to_nat (Z.abs n)) (drop k l)) in Hd.
  by apply StronglySorted_app_1_l in Hd.
Qed.

(** A 200 answer of GET lists the page the query selected. *)
Lemma get_messages_200 userId roomId (page limit : option Z) e d :
  status (get_messages userId roomId page limit e d) = 200%nat →
  is_member userId roomId d = true
  ∧ (0 ≤ (default 1 page - 1) * default 50 limit)%Z
  ∧ returned (get_messages userId roomId page limit e d)
    = reverse (populate_replyTo d <$>
        limit_to (default 50 limit)
          (drop (Z.to_nat ((default 1 page - 1) * default 50 limit))
             (merge_sort newer_first
                (List.filter (in_room_not_deleted roomId)
                   (map_to_list (Messages d)))))).
Proof.
  unfold get_messages, is_member.
  destruct (rejects e 0%nat); [done|].
  destruct (Room_findOne_member roomId userId d); [|done].
  destruct (rejects e 1%nat); [done|].
  unfold Message_find_page.
  destruct (Z.ltb_spec ((default 1 page - 1) * default 50 limit) 0); [done|].
  destruct (rejects e 2%nat); [done|]. intros _.
  split; [by apply bool_decide_eq_true_2|]. split; [lia | done].
Qed.

Lemma in_live_list roomId d id m :
  (id, m) ∈ List.filter (in_room_not_deleted roomId) (map_to_list (Messages d))
  ↔ Messages d !! id = Some m ∧ room m = roomId ∧ isDeleted m = false.
Proof.
  rewrite list_elem_of_In, filter_In, <- list_elem_of_In, elem_of_map_to_list.
  unfold in_room_not_deleted. simpl.
  rewrite andb_true_iff, String.eqb_eq, negb_true_iff. tauto.
Qed.

End Listing.

(** X6: GET /api/messages/:roomId answers 200 only to a member of the
    active room; the messages it lists are in order of creation, oldest
    first, and unless the limit is 0 there are at most as many as the
    limit asks for (50 when none is given). *)
Theorem get_messages_page_is_ordered (userId roomId : string)
    (page limit : option Z) (e : env) (d : database) :
  status (get_messages userId roomId page limit e d) = 200%nat →
  is_member userId roomId d = true
  ∧ StronglySorted Invariants.older_first
      (returned (get_messages userId roomId page limit e d))
  ∧ (default 50%Z limit ≠ 0%Z →
     (length (returned (get_messages userId roomId page limit e d))
      ≤ Z.to_nat (Z.abs (default 50%Z limit)))%nat).
Proof.
  intros (Hmem & _ & ->)%get_messages_200. split; [done|]. split.
  - apply (StronglySorted_reverse (flip Invariants.older_first)).
    apply (StronglySorted_fmap _ newer_first); [by intros [??] [??]|].
    apply StronglySorted_limit_drop.
    apply (@StronglySorted_merge_sort _ newer_first _
             newer_first_trans newer_first_total).
  - intros Hlim. rewrite length_reverse, length_fmap. unfold limit_to.
    destruct (Z.eqb_spec (default 50%Z limit) 0); [done|].
    rewrite length_take. lia.
Qed.

Lemma get_messages_page_is_ordered_witness :
  let r := get_messages "alice" "general" None (Some 1%Z)
             (Scenario.calm 9 "unused") Cases.two_posts in
  returned_ids r = ["mB"]
  ∧ is_member "alice" "general" Cases.two_posts = true
  ∧ StronglySorted Invariants.older_first (returned r)
  ∧ (default 50%Z (Some 1%Z) ≠ 0%Z →
     (length (returned r) ≤ Z.to_nat (Z.abs (default 50%Z (Some 1%Z))))%nat).
Proof.
  intros r. split; [vm_compute; reflexivity|].
  apply (get_messages_page_is_ordered "alice" "general" None (Some 1%Z)
           (Scenario.calm 9 "unused") Cases.two_posts).
  vm_compute. reflexivity.
Defined.

(** X7: with limit=0 the page size is not applied: whatever the page, a
    GET answered 200 lists every message of the room that is not deleted,
    and nothing else. *)
Theorem get_messages_limit_zero_lists_all (userId roomId : string)
    (page : option Z) (e : env) (d : database) (id : string) :
  status (get_messages userId roomId page (Some 0%Z) e d) = 200%nat →
  id ∈ returned_ids (get_messages userId roomId page (Some 0%Z) e d)
  ↔ ∃ m, Messages d !! id = Some m ∧ room m = roomId ∧ isDeleted m = false.
Proof.
  intros (_ & _ & Hret)%get_messages_200. unfold returned_ids. rewrite Hret.
  simpl. rewrite Z.mul_0_r. simpl. unfold limit_to. simpl.
  rewrite list_elem_of_fmap. setoid_rewrite elem_of_reverse.
  setoid_rewrite list_elem_of_fmap.
  setoid_rewrite (merge_sort_Permutation newer_first).
  split.
  - intros (l & -> & [i m] & -> & Hin). exists m. by apply in_live_list.
  - intros (m & Hm). exists (populate_replyTo d (id, m)). split; [done|].
    exists (id, m). split; [done|]. by apply in_live_list.
Qed.

Lemma get_messages_limit_zero_lists_all_witness :
  "mA" ∈ returned_ids (get_messages "alice" "general" (Some 7%Z) (Some 0%Z)
                         (Scenario.calm 9 "unused") Cases.two_posts).
Proof.
  apply (get_messages_limit_zero_lists_all "alice" "general" (Some 7%Z)
           (Scenario.calm 9 "unused") Cases.two_posts "mA").
  - vm_compute. reflexivity.
  - eexists. split; [vm_compute; reflexivity|]. split; reflexivity.
Defined.

Section Writing.

Implicit Types (d : database) (m : message) (id userId roomId : string) (e : env).

Lemma Room_findOne_member_is_member roomId userId d :
  is_Some (Room_findOne_member roomId userId d) ↔ is_member userId roomId d = true.
Proof. unfold is_member. by rewrite bool_decide_eq_true. Qed.




Lemma save_existing_db id m d d1 :
  save_existing id m d = Some d1 →
  d1 = set_Messages <[id := m]> d.
Proof. unfold save_existing. destruct (valid_message m); [|done]. by intros [= <-]. Qed.

End Writing.



(** X9: a user who is not a member of the room named in the body cannot
    post to it: the request is refused (400, 404 or 500) and the database
    stays as it was. *)
Theorem post_message_needs_membership (userId : string) (b : post_body)
    (e : env) (d : database) :
  is_member userId (default "" (b_roomId b)) d = false →
  (post_message userId b e d).1 = d
  ∧ (status (post_message userId b e d).2 = 400%nat
     ∨ status (post_message userId b e d).2 = 404%nat
     ∨ status (post_message userId b e d).2 = 500%nat).
Proof.
  intros Hnot. unfold post_message.
  destruct (validate_post b) as [c|]; [|by split; [|left]].
  destruct (rejects e 0%nat); [by split; [|right; right]|].
  destruct (Room_findOne_member _ userId d) as [rd|] eqn:Hmem;
    [|by split; [|right; left]].
  assert (is_member userId (default "" (b_roomId b)) d = true) as Hyes.
  { apply Room_findOne_member_is_member. by rewrite Hmem. }
  congruence.
Qed.

Lemma post_message_needs_membership_witness :
  let b := PostBody (Some "hello") (Some "general") (Some "text") None None in
  (post_message "bob" b (Scenario.calm 1 "mX") Scenario.db0).1 = Scenario.db0
  ∧ status (post_message "bob" b (Scenario.calm 1 "mX") Scenario.db0).2 = 404%nat.
Proof.
  intros b.
  destruct (post_message_needs_membership "bob" b (Scenario.calm 1 "mX")
              Scenario.db0) as [Hsame _]; [vm_compute; reflexivity|].
  split; [exact Hsame | vm_compute; reflexivity].
Defined.

(** X10: whatever the request, an answer 400 or 404 of a message route
    comes with no change to the database. *)
Theorem refusals_change_nothing (userId : string) (r : request) (e : env)
    (d : database) :
  status (route userId r e d).2 = 400%nat ∨ status (route userId r e d).2 = 404%nat →
  (route userId r e d).1 = d.
Proof.
  destruct r as [roomId page limit|b|id c|id|id em|id em]; simpl; [done|..].
  - unfold post_message. repeat (first [ done | case_match ]); simpl;
      intros [?|?]; done.
  - unfold put_message. repeat (first [ done | case_match ]); simpl;
      intros [?|?]; done.
  - unfold delete_message. repeat (first [ done | case_match ]); simpl;
      intros [?|?]; done.
  - unfold add_reaction. repeat (first [ done | case_match ]); simpl;
      intros [?|?]; done.
  - unfold remove_reaction. repeat (first [ done | case_match ]); simpl;
      intros [?|?]; done.
Qed.

Lemma refusals_change_nothing_witness :
  status (route "bob" (PutMessage "mA" (Some "edited by bob"))
            (Scenario.calm 5 "unused") Cases.two_posts).2 = 404%nat
  ∧ (route "bob" (PutMessage "mA" (Some "edited by bob"))
       (Scenario.calm 5 "unused") Cases.two_posts).1 = Cases.two_posts.
Proof.
  assert (status (route "bob" (PutMessage "mA" (Some "edited by bob"))
                    (Scenario.calm 5 "unused") Cases.two_posts).2 = 404%nat) as H404.
  { vm_compute. reflexivity. }
  split; [exact H404|].
  apply (refusals_change_nothing "bob" (PutMessage "mA" (Some "edited by bob"))
           (Scenario.calm 5 "unused") Cases.two_posts).
  right. exact H404.
Defined.



(** X12: an edit whose new text is not empty but only white space passes
    the request validation, and for a message without attachments is then
    rejected by the save: the answer is 500, not 400, and the message is
    left as it was. *)
Theorem put_blank_text_is_server_error (userId id raw : string) (e : env)
    (d : database) (m : message) :
  raw ≠ "" → trim raw = "" →
  Message_findOne_own id userId d = Some m → attachments m = [] →
  (now e - createdAt m ≤ day_ms)%Z → rejects e 0%nat = false →
  put_message userId id (Some raw) e d = (d, server_error).
Proof.
  intros Hraw Htrim Hfind Hatt Hage R0. unfold put_message.
  destruct (String.eqb_spec raw ""); [done|].
  rewrite Htrim. simpl. rewrite R0, Hfind.
  destruct (Z.ltb_spec day_ms (now e - createdAt m)); [lia|].
  destruct (rejects e 1%nat); [done|].
  unfold save_existing, valid_message. simpl. by rewrite Hatt.
Qed.

Lemma put_blank_text_is_server_error_witness :
  put_message "alice" "mA" (Some "   ") (Scenario.calm 5 "unused") Cases.two_posts
  = (Cases.two_posts, server_error).
Proof.
  eapply (put_blank_text_is_server_error "alice" "mA" "   "
            (Scenario.calm 5 "unused") Cases.two_posts).
  - discriminate.
  - reflexivity.
  - vm_compute. reflexivity.
  - reflexivity.
  - vm_compute. discriminate.
  - reflexivity.
Defined.

Section Keeping.

Implicit Types (d : database) (m : message) (id userId : string) (e : env).

Lemma same_origin_refl m : Invariants.same_origin m m.
Proof. by repeat split. Qed.

Lemma same_origin_trans m1 m2 m3 :
  Invariants.same_origin m1 m2 → Invariants.same_origin m2 m3 →
  Invariants.same_origin m1 m3.
Proof. unfold Invariants.same_origin. intros (?&?&?&?&?&?) (?&?&?&?&?&?).
  repeat split; congruence. Qed.

(** Saving a changed copy of a message that a query found (so: not
    deleted) keeps every stored message, with its origin, and does not
    touch a deleted one. *)
Lemma save_found_keeps id id' m0 m1 m d d1 :
  Messages d !! id' = Some m0 → isDeleted m0 = false →
  Invariants.same_origin m0 m1 →
  save_existing id' m1 d = Some d1 →
  Messages d !! id = Some m →
  ∃ m', Messages d1 !! id = Some m' ∧ Invariants.same_origin m m'
        ∧ (isDeleted m = true → m' = m).
Proof.
  intros H0 Hnd Ho Hs Hm. apply save_existing_db in Hs as ->. simpl.
  destruct (decide (id' = id)) as [->|Hne].
  - rewrite lookup_insert_eq. exists m1. assert (m0 = m) as -> by congruence.
    split; [done|]. split; [done|]. congruence.
  - rewrite lookup_insert_ne by done. exists m.
    split; [done|]. split; [apply same_origin_refl | done].
Qed.

Lemma route_keeps userId (r : request) e d id m :
  Messages d !! id = Some m →
  ∃ m', Messages (route userId r e d).1 !! id = Some m'
        ∧ Invariants.same_origin m m' ∧ (isDeleted m = true → m' = m).
Proof.
  intros Hm.
  assert (∃ m', Messages d !! id = Some m' ∧ Invariants.same_origin m m'
                ∧ (isDeleted m = true → m' = m)) as Hsame.
  { exists m. split; [done|]. split; [apply same_origin_refl | done]. }
  destruct r as [roomId page limit|b|id' c|id'|id' em|id' em]; simpl.
  - done.
  - unfold post_message.
    repeat (first [ done | case_match ]); simpl; try done.
    all: match goal with H : save_new _ _ _ = Some _ |- _ =>
           apply save_new_Some in H as (Hfree & HM & _ & _) end.
    all: rewrite ?Messages_set_lastMessage, HM.
    all: rewrite lookup_insert_ne by (intros <-; congruence); done.
  - unfold put_message.
    repeat (first [ done | case_match ]); simpl; try done.
    all: match goal with H : Message_findOne_own _ _ _ = Some _ |- _ =>
           apply Message_findOne_own_Some in H as (? & ? & ?) end.
    all: eapply save_found_keeps; [done | done | | done | done].
    all: by repeat split.
  - unfold delete_message.
    repeat (first [ done | case_match ]); simpl; try done.
    all: match goal with H : Message_findOne_own _ _ _ = Some _ |- _ =>
           apply Message_findOne_own_Some in H as (? & ? & ?) end.
    all: eapply save_found_keeps; [done | done | | done | done].
    all: by repeat split.
  - unfold add_reaction.
    repeat (first [ done | case_match ]); simpl; try done.
    all: match goal with H : Message_findOne _ _ = Some _ |- _ =>
           apply Message_findOne_Some in H as (? & ?) end.
    all: eapply save_found_keeps; [done | done | | done | done].
    all: by repeat split.
  - unfold remove_reaction.
    repeat (first [ done | case_match ]); simpl; try done.
    all: match goal with H : Message_findOne _ _ = Some _ |- _ =>
           apply Message_findOne_Some in H as (? & ?) end.
    all: eapply save_found_keeps; [done | done | | done | done].
    all: by repeat split.
Qed.

End Keeping.

(** X13: no sequence of message requests removes a stored message or
    changes its sender, room, type, attachments, replyTo or creation
    time; and once a message is marked deleted its record never changes
    again. *)
Theorem messages_are_kept (reqs : list (string * request * env))
    (d : database) (id : string) (m : message) :
  Messages d !! id = Some m →
  ∃ m', Messages (serve reqs d) !! id = Some m'
        ∧ Invariants.same_origin m m'
        ∧ (isDeleted m = true → m' = m).
Proof.
  revert d m. induction reqs as [|[[u r] e] reqs IH]; intros d m Hm; simpl.
  - exists m. split; [done|]. split; [apply same_origin_refl | done].
  - destruct (route_keeps u r e d id m Hm) as (m1 & H1 & Ho1 & Hd1).
    destruct (IH _ _ H1) as (m2 & H2 & Ho2 & Hd2).
    exists m2. split; [done|]. split; [by eapply same_origin_trans|].
    intros Hdel. specialize (Hd1 Hdel). subst m1. by apply Hd2.
Qed.

Lemma messages_are_kept_witness :
  ∃ m m',
    Messages Cases.two_posts !! "mA" = Some m
    ∧ Messages (serve [("alice", DeleteMessage "mA", Scenario.calm 3 "unused");
                       ("alice", PutMessage "mA" (Some "again"), Scenario.calm 4 "unused");
                       ("bob", AddReaction "mA" (Some "+1"), Scenario.calm 5 "unused")]
                      Cases.two_posts) !! "mA" = Some m'
    ∧ Invariants.same_origin m m'
    ∧ (isDeleted m = true → m' = m).
Proof.
  eexists.
  assert (Messages Cases.two_posts !! "mA"
          = Some (new_Message (Some "original") "alice" "general" "text" [] None 1))
    as Hm by (vm_compute; reflexivity).
  destruct (messages_are_kept
              [("alice", DeleteMessage "mA", Scenario.calm 3 "unused");
               ("alice", PutMessage "mA" (Some "again"), Scenario.calm 4 "unused");
               ("bob", AddReaction "mA" (Some "+1"), Scenario.calm 5 "unused")]
              Cases.two_posts "mA" _ Hm) as (m' & H1 & H2 & H3).
  exists m'. split; [exact Hm|]. split; [exact H1|]. split; [exact H2 | exact H3].
Defined.

(** X14: a request to edit, delete or react to a message that is marked
    deleted is refused (400, 404 or 500) and changes nothing. *)
Theorem deleted_message_is_closed (userId id : string) (r : request) (e : env)
    (d : database) :
  marked_deleted id d →
  (∃ c, r = PutMessage id c) ∨ r = DeleteMessage id
  ∨ (∃ em, r = AddReaction id em) ∨ (∃ em, r = RemoveReaction id em) →
  (route userId r e d).1 = d
  ∧ (status (route userId r e d).2 = 400%nat
     ∨ status (route userId r e d).2 = 404%nat
     ∨ status (route userId r e d).2 = 500%nat).
Proof.
  intros (m & Hm & Hdel) Hr.
  assert (Message_findOne id d = None) as Hnone.
  { unfold Message_findOne. by rewrite Hm, Hdel. }
  assert (Message_findOne_own id userId d = None) as Hnone'.
  { unfold Message_findOne_own. by rewrite Hnone. }
  destruct Hr as [[c ->] | [-> | [[em ->] | [em ->]]]]; simpl.
  - unfold put_message. rewrite Hnone'.
    repeat (first [ by auto | case_match ]).
  - unfold delete_message. rewrite Hnone'.
    repeat (first [ by auto | case_match ]).
  - unfold add_reaction. rewrite Hnone.
    repeat (first [ by auto | case_match ]).
  - unfold remove_reaction. rewrite Hnone.
    repeat (first [ by auto | case_match ]).
Qed.

Lemma deleted_message_is_closed_witness :
  let d := serve Scenario.reply_then_delete Scenario.db0 in
  let r := AddReaction "mA" (Some "+1") in
  (route "alice" r (Scenario.calm 5 "unused") d).1 = d
  ∧ (status (route "alice" r (Scenario.calm 5 "unused") d).2 = 400%nat
     ∨ status (route "alice" r (Scenario.calm 5 "unused") d).2 = 404%nat
     ∨ status (route "alice" r (Scenario.calm 5 "unused") d).2 = 500%nat).
Proof.
  intros d r.
  apply (deleted_message_is_closed "alice" "mA" r (Scenario.calm 5 "unused") d).
  - eexists. split; vm_compute; reflexivity.
  - right. right. left. by eexists.
Defined.

(* ===================================================================== *)
(** ** Reactions *)
(* ===================================================================== *)

Section Reactions.

Implicit Types (d : database) (m : message) (id userId em : string) (e : env).

Lemma valid_with_reactions (rs : list reaction) m :
  valid_message (with_reactions rs m) = valid_message m.
Proof. reflexivity. Qed.






End Reactions.

(** X15: reacting asks for no room membership.  Any authenticated user
    who has not yet put this emoji on the message gets a 200 for a
    non-empty emoji on a stored, valid, not deleted message when no
    database call fails, and the reaction is appended to the message. *)
Theorem add_reaction_is_open_to_all (userId id em : string) (e : env)
    (d : database) (m : message) :
  Message_findOne id d = Some m → valid_message m = true →
  em ≠ "" → existsb (same_reaction userId em) (reactions m) = false →
  rejects e 0%nat = false → rejects e 1%nat = false → rejects e 2%nat = false →
  status (add_reaction userId id (Some em) e d).2 = 200%nat
  ∧ Messages (add_reaction userId id (Some em) e d).1 !! id
    = Some (with_reactions (reactions m ++ [Reaction userId em]) m).
Proof.
  intros Hfind Hvalid Hem Hnew R0 R1 R2. unfold add_reaction.
  destruct (String.eqb_spec em ""); [done|].
  rewrite R0, Hfind, Hnew, R1. unfold save_existing.
  rewrite valid_with_reactions, Hvalid, R2. simpl.
  split; [done | apply lookup_insert_eq].
Qed.

Lemma add_reaction_is_open_to_all_witness :
  is_member "bob" "general" Cases.two_posts = false
  ∧ status (add_reaction "bob" "mA" (Some "+1") (Scenario.calm 5 "unused")
              Cases.two_posts).2 = 200%nat
  ∧ reactions <$> Messages (add_reaction "bob" "mA" (Some "+1")
                              (Scenario.calm 5 "unused") Cases.two_posts).1 !! "mA"
    = Some [Reaction "bob" "+1"].
Proof.
  split; [vm_compute; reflexivity|].
  destruct (add_reaction_is_open_to_all "bob" "mA" "+1" (Scenario.calm 5 "unused")
              Cases.two_posts
              (new_Message (Some "original") "alice" "general" "text" [] None 1))
    as [H200 Hstored];
    [vm_compute; reflexivity | reflexivity | discriminate | reflexivity
    | reflexivity | reflexivity | reflexivity |].
  split; [exact H200|]. rewrite Hstored. reflexivity.
Defined.



Section DistinctReactions.

Implicit Types (d : database) (m : message) (id userId em : string) (e : env).





End DistinctReactions.



(* ===================================================================== *)
(** ** Room membership routes *)
(* ===================================================================== *)

Section Membership.

Import RoomRoutes.

Implicit Types (d : database) (r : room_doc) (id userId u : string) (e : env).

Lemma has_member_elem u r :
  has_member u r = true ↔ u ∈ Models.user <$> members r.
Proof.
  unfold has_member. rewrite existsb_exists, list_elem_of_fmap. split.
  - intros (m & Hin & Heq%String.eqb_eq). exists m. by rewrite list_elem_of_In.
  - intros (m & Heq & Hin). exists m. by rewrite <- list_elem_of_In, String.eqb_eq.
Qed.

Lemma Room_findOne_member_Some id u d r :
  Room_findOne_member id u d = Some r ↔
  Rooms d !! id = Some r ∧ isActive r = true ∧ u ∈ Models.user <$> members r.
Proof.
  unfold Room_findOne_member.
  destruct (Rooms d !! id) as [r0|]; [|split; [done | by intros (? & _)]].
  destruct (isActive r0) eqn:Hact; simpl.
  - case_bool_decide as Hin.
    + split; [by intros [= <-] | by intros ([= <-] & _)].
    + split; [done | intros ([= <-] & _ & ?); done].
  - split; [done | intros ([= <-] & ? & _); congruence].
Qed.

Lemma is_member_lookup u id d :
  is_member u id d = true ↔
  ∃ r, Rooms d !! id = Some r ∧ isActive r = true ∧ u ∈ Models.user <$> members r.
Proof.
  rewrite <- Room_findOne_member_is_member. split.
  - intros [r Hr]. exists r. by apply Room_findOne_member_Some.
  - intros (r & Hr). exists r. by apply Room_findOne_member_Some.
Qed.

Lemma is_member_saved u id r d :
  is_member u id (Room_save id r d) = isActive r && has_member u r.
Proof.
  apply eq_true_iff_eq. rewrite is_member_lookup, andb_true_iff, has_member_elem.
  unfold Room_save. simpl. rewrite lookup_insert_eq. split.
  - by intros (? & [= <-] & ? & ?).
  - intros [? ?]. by exists r.
Qed.

Lemma is_member_saved_other u id id' r d :
  id' ≠ id → is_member u id' (Room_save id r d) = is_member u id' d.
Proof.
  intros Hne. apply eq_true_iff_eq. rewrite !is_member_lookup.
  unfold Room_save. simpl. by rewrite lookup_insert_ne.
Qed.

Lemma has_member_added u v (role : string) r :
  has_member u (set_members (members r ++ [Member v role]) r)
  = has_member u r || String.eqb v u.
Proof.
  unfold has_member. simpl. rewrite existsb_app. simpl. by rewrite orb_false_r.
Qed.

Lemma has_member_without u v r :
  has_member u (set_members (without_member v r) r)
  = has_member u r && negb (String.eqb u v).
Proof.
  unfold has_member, without_member. simpl.
  induction (members r) as [|m l IH]; simpl; [done|].
  destruct (String.eqb_spec (Models.user m) v) as [Hv|Hv]; simpl; rewrite IH.
  - destruct (String.eqb_spec u v) as [Huv|Huv]; simpl.
    + by rewrite !andb_false_r.
    + rewrite (proj2 (String.eqb_neq (Models.user m) u)); [done | congruence].
  - destruct (String.eqb_spec (Models.user m) u) as [Hu|Hu]; simpl; [|done].
    rewrite (proj2 (String.eqb_neq u v)); [done | congruence].
Qed.





End Membership.

Section MembershipRoutes.

Import RoomRoutes.

Implicit Types (d : database) (r : room_doc) (id userId u : string) (e : env).

Lemma is_member_of_room u id d r :
  Rooms d !! id = Some r → is_member u id d = isActive r && has_member u r.
Proof.
  intros Hr. apply eq_true_iff_eq.
  rewrite is_member_lookup, andb_true_iff, has_member_elem, Hr. split.
  - by intros (? & [= <-] & ? & ?).
  - intros [? ?]. by exists r.
Qed.

Lemma Room_findOne_active_Some id d r :
  Room_findOne_active id d = Some r ↔ Rooms d !! id = Some r ∧ isActive r = true.
Proof.
  unfold Room_findOne_active. destruct (Rooms d !! id) as [r0|]; [|by split; [|intros []]].
  destruct (isActive r0) eqn:Hact.
  - split; [by intros [= <-] | by intros [[= <-] _]].
  - split; [done | intros [[= <-] ?]; congruence].
Qed.

Lemma Room_findOne_managed_Some id u d r :
  Room_findOne_managed id u d = Some r ↔
  Rooms d !! id = Some r ∧ isActive r = true ∧ u ∈ Models.user <$> members r
  ∧ existsb (λ m, bool_decide (role m ∈ managers)) (members r) = true.
Proof.
  unfold Room_findOne_managed.
  destruct (Room_findOne_member id u d) as [r0|] eqn:Hf.
  - apply Room_findOne_member_Some in Hf as (Hr & Hact & Hin).
    destruct (existsb _ (members r0)) eqn:Hex.
    + split; [by intros [= <-] | intros (Hr' & _); congruence].
    + split; [done|]. intros (Hr' & _ & _ & Hex').
      assert (r = r0) as -> by congruence. congruence.
  - split; [done|]. intros (Hr & Hact & Hin & _).
    assert (Room_findOne_member id u d = Some r) as Hyes
      by (by apply Room_findOne_member_Some).
    congruence.
Qed.


End MembershipRoutes.

(** X18: a POST /api/rooms/:id/join answered 200 was made by a user who
    was not yet a member of that active room and makes them one; nobody
    else's membership of any room changes, and no message or user is
    touched. *)
Theorem join_grants_membership (userId id : string) (e : env) (d : database) :
  RoomRoutes.code (RoomRoutes.join userId id e d).2 = 200%nat →
  let d' := (RoomRoutes.join userId id e d).1 in
  is_member userId id d = false
  ∧ is_member userId id d' = true
  ∧ (∀ u id', u ≠ userId ∨ id' ≠ id → is_member u id' d' = is_member u id' d)
  ∧ Messages d' = Messages d ∧ Users d' = Users d.
Proof.
  unfold RoomRoutes.join. destruct (rejects e 0%nat); [done|].
  destruct (RoomRoutes.Room_findOne_active id d) as [r|] eqn:Hf; [|done].
  apply Room_findOne_active_Some in Hf as [Hr Hact].
  destruct (RoomRoutes.has_member userId r) eqn:Hhas; [done|].
  destruct (rejects e 1%nat); [done|].
  assert (is_member userId id d = false) as Hbefore.
  { rewrite (is_member_of_room _ _ _ _ Hr), Hhas. apply andb_false_r. }
  assert (∀ d1, d1 = RoomRoutes.Room_save id
                       (RoomRoutes.set_members
                          (members r ++ [Member userId "member"]) r) d →
            is_member userId id d1 = true
            ∧ (∀ u id', u ≠ userId ∨ id' ≠ id →
                        is_member u id' d1 = is_member u id' d)
            ∧ Messages d1 = Messages d ∧ Users d1 = Users d) as Hafter.
  { intros d1 ->. split; [|split; [|done]].
    - rewrite is_member_saved, has_member_added, String.eqb_refl. simpl.
      by rewrite Hact, orb_true_r.
    - intros u id' Hne. destruct (decide (id' = id)) as [->|Hid].
      + rewrite is_member_saved, has_member_added. simpl.
        rewrite (is_member_of_room _ _ _ _ Hr).
        destruct Hne as [Hu|?]; [|done].
        rewrite (proj2 (String.eqb_neq userId u)) by congruence.
        by rewrite orb_false_r.
      + by apply is_member_saved_other. }
  destruct (rejects e 2%nat); [done|]. intros _. simpl.
  split; [done|]. exact (Hafter _ eq_refl).
Qed.

Lemma join_grants_membership_witness :
  let e := Scenario.calm 1 "unused" in
  let d' := (RoomRoutes.join "dave" "general" e Cases.team_db).1 in
  is_member "dave" "general" Cases.team_db = false
  ∧ is_member "dave" "general" d' = true
  ∧ (∀ u id', u ≠ "dave" ∨ id' ≠ "general" →
              is_member u id' d' = is_member u id' Cases.team_db)
  ∧ Messages d' = Messages Cases.team_db ∧ Users d' = Users Cases.team_db.
Proof.
  intros e d'. apply (join_grants_membership "dave" "general" e Cases.team_db).
  vm_compute. reflexivity.
Defined.

(** X19: posting treats all members of a room alike: two members sending
    the same body in the same circumstances get the same status.  So a
    user who has just joined can post wherever an older member can. *)
Theorem members_post_alike (u u' : string) (b : post_body) (e : env) (d : database) :
  is_member u (default "" (b_roomId b)) d = true →
  is_member u' (default "" (b_roomId b)) d = true →
  status (post_message u b e d).2 = status (post_message u' b e d).2.
Proof.
  intros [r Hr]%Room_findOne_member_is_member [r' Hr']%Room_findOne_member_is_member.
  unfold post_message. destruct (validate_post b) as [c|]; [|done].
  destruct (rejects e 0%nat); [done|]. rewrite Hr, Hr'.
  destruct (falsy_string c && _)%bool; [done|].
  destruct (rejects e 1%nat); [done|].
  unfold save_new.
  change (valid_message (new_Message c u (default "" (b_roomId b))
                           (default "text" (b_messageType b))
                           (default [] (b_attachments b)) (b_replyTo b) (now e)))
    with (valid_message (new_Message c u' (default "" (b_roomId b))
                           (default "text" (b_messageType b))
                           (default [] (b_attachments b)) (b_replyTo b) (now e))).
  destruct (valid_message _); [|done].
  destruct (Messages d !! new_id e); [done|].
  by destruct (rejects e 2%nat || _ || _)%bool.
Qed.

Lemma members_post_alike_witness :
  let b := PostBody (Some "hello") (Some "general") (Some "text") None None in
  let e := Scenario.calm 2 "m1" in
  let d' := (RoomRoutes.join "dave" "general" (Scenario.calm 1 "unused")
               Cases.team_db).1 in
  status (post_message "dave" b e Cases.team_db).2 = 404%nat
  ∧ status (post_message "alice" b e d').2 = 201%nat
  ∧ status (post_message "dave" b e d').2 = status (post_message "alice" b e d').2.
Proof.
  intros b e d'. split; [vm_compute; reflexivity|].
  split; [vm_compute; reflexivity|].
  apply (members_post_alike "dave" "alice" b e d'); vm_compute; reflexivity.
Defined.

(** X20: a POST /api/rooms/:id/leave answered 200 was made by a member
    whose entry is not an admin's, and ends the membership; the other
    users' memberships stay.  A user whose entry has role admin is never
    let go: the database is unchanged. *)
Theorem leave_revokes_membership (userId id : string) (e : env) (d : database) :
  let d' := (RoomRoutes.leave userId id e d).1 in
  (RoomRoutes.code (RoomRoutes.leave userId id e d).2 = 200%nat →
     is_member userId id d = true
     ∧ is_member userId id d' = false
     ∧ (∀ u id', u ≠ userId ∨ id' ≠ id → is_member u id' d' = is_member u id' d)
     ∧ Messages d' = Messages d ∧ Users d' = Users d)
  ∧ (∀ r m, Rooms d !! id = Some r →
            RoomRoutes.find_member userId r = Some m → role m = "admin" →
            d' = d).
Proof.
  unfold RoomRoutes.leave. split.
  - destruct (rejects e 0%nat); [done|].
    destruct (Room_findOne_member id userId d) as [r|] eqn:Hf; [|done].
    pose proof Hf as (Hr & Hact & Hin)%Room_findOne_member_Some.
    destruct (RoomRoutes.find_member userId r) as [m|]; [|done].
    destruct (String.eqb (role m) "admin"); [done|].
    destruct (rejects e 1%nat); [done|]. intros _. simpl.
    split; [apply Room_findOne_member_is_member; by rewrite Hf|].
    split; [|split; [|done]].
    + rewrite is_member_saved, has_member_without, String.eqb_refl. simpl.
      by rewrite !andb_false_r.
    + intros u id' Hne. destruct (decide (id' = id)) as [->|Hid].
      * rewrite is_member_saved, has_member_without. simpl.
        rewrite (is_member_of_room _ _ _ _ Hr).
        destruct Hne as [Hu|?]; [|done].
        rewrite (proj2 (String.eqb_neq u userId)) by done.
        by rewrite andb_true_r.
      * by apply is_member_saved_other.
  - intros r m Hr Hfind Hrole. destruct (rejects e 0%nat); [done|].
    destruct (Room_findOne_member id userId d) as [r0|] eqn:Hf; [|done].
    apply Room_findOne_member_Some in Hf as (Hr0 & _ & _).
    assert (r0 = r) as -> by congruence. rewrite Hfind, Hrole. done.
Qed.

(** X21: the permission query of DELETE /api/rooms/:id/members/:userId
    matches its two conditions on different entries: it is enough that
    the requester is a member and that some member is admin or moderator.
    So in an active room with such a member, any member can remove any
    user whose entry is not an admin's, and that user is then no longer a
    member. *)
Theorem any_member_can_remove (reqUser id userId : string) (e : env)
    (d : database) (r : room_doc) (boss : member) :
  Rooms d !! id = Some r → isActive r = true →
  reqUser ∈ Models.user <$> members r →
  boss ∈ members r → role boss ∈ RoomRoutes.managers →
  (∀ m, RoomRoutes.find_member userId r = Some m → role m ≠ "admin") →
  rejects e 0%nat = false → rejects e 1%nat = false →
  RoomRoutes.code (RoomRoutes.remove_member reqUser id userId e d).2 = 200%nat
  ∧ is_member userId id (RoomRoutes.remove_member reqUser id userId e d).1 = false.
Proof.
  intros Hr Hact Hreq Hboss Hrole Hnot R0 R1. unfold RoomRoutes.remove_member.
  rewrite R0.
  assert (RoomRoutes.Room_findOne_managed id reqUser d = Some r) as ->.
  { apply Room_findOne_managed_Some. repeat split; try done.
    apply existsb_exists. exists boss. split; [by apply list_elem_of_In|].
    by apply bool_decide_eq_true_2. }
  assert (match RoomRoutes.find_member userId r with
          | Some m => String.eqb (role m) "admin"
          | None => false
          end = false) as ->.
  { destruct (RoomRoutes.find_member userId r) as [m|]; [|done].
    apply String.eqb_neq. by apply Hnot. }
  rewrite R1. simpl. split; [done|].
  rewrite is_member_saved, has_member_without, String.eqb_refl. simpl.
  by rewrite !andb_false_r.
Qed.

Lemma any_member_can_remove_witness :
  role <$> RoomRoutes.find_member "bob" Cases.team = Some "member"
  ∧ RoomRoutes.code (RoomRoutes.remove_member "bob" "general" "carol"
                       (Scenario.calm 1 "unused") Cases.team_db).2 = 200%nat
  ∧ is_member "carol" "general"
      (RoomRoutes.remove_member "bob" "general" "carol"
         (Scenario.calm 1 "unused") Cases.team_db).1 = false.
Proof.
  split; [reflexivity|].
  apply (any_member_can_remove "bob" "general" "carol" (Scenario.calm 1 "unused")
           Cases.team_db Cases.team (Member "alice" "admin")).
  - reflexivity.
  - reflexivity.
  - decide_by_computation.
  - apply list_elem_of_here.
  - apply list_elem_of_here.
  - intros m [= <-]. discriminate.
  - reflexivity.
  - reflexivity.
Defined.



Lemma leave_revokes_membership_witness :
  let e := Scenario.calm 1 "unused" in
  RoomRoutes.code (RoomRoutes.leave "bob" "general" e Cases.team_db).2 = 200%nat
  ∧ is_member "bob" "general" (RoomRoutes.leave "bob" "general" e Cases.team_db).1
    = false
  ∧ (RoomRoutes.leave "alice" "general" e Cases.team_db).1 = Cases.team_db.
Proof.
  intros e.
  assert (RoomRoutes.code (RoomRoutes.leave "bob" "general" e Cases.team_db).2
          = 200%nat) as H200 by (vm_compute; reflexivity).
  split; [exact H200|]. split.
  - exact (proj1 (proj2 (proj1 (leave_revokes_membership "bob" "general" e
                                  Cases.team_db) H200))).
  - apply (proj2 (leave_revokes_membership "alice" "general" e Cases.team_db)
             Cases.team (Member "alice" "admin")); reflexivity.
Defined.

(* ===================================================================== *)
(** ** More on the chat client *)
(* ===================================================================== *)

Section Typing.

Implicit Types (c : chat) (t : Z) (ts : list Z).

Lemma last_cons_default (x : Z) (l : list Z) :
  last (x :: l) = Some (default x (last l)).
Proof.
  revert x. induction l as [|y l IH]; intros x; [done|].
  change (last (x :: y :: l)) with (last (y :: l)). by rewrite IH.
Qed.

Lemma last_time_cons t t' ts :
  Invariants.last_time t (t' :: ts) = Invariants.last_time t' ts.
Proof. unfold Invariants.last_time. by rewrite last_cons_default. Qed.

Lemma keystrokes_in_burst ts t c :
  isTyping c = true → typingTimeout c = Some (t + typing_ttl)%Z →
  Invariants.burst t ts →
  Composer.keystrokes ts c
  = (set_typing true (Some (Invariants.last_time t ts + typing_ttl)%Z) c, []).
Proof.
  revert t c. induction ts as [|t' ts IH]; intros t c Hon Htimer Hburst.
  - simpl. unfold Invariants.last_time. simpl. rewrite <- Htimer, <- Hon.
    by destruct c.
  - destruct Hburst as [Hgap Hrest]. simpl.
    unfold elapse. rewrite Htimer.
    destruct (Z.leb_spec (t + typing_ttl) t') as [|_]; [lia|].
    unfold handleTyping. rewrite Hon.
    rewrite (IH t' (set_typing true (Some (t' + typing_ttl)%Z) c));
      [|done|done|done].
    rewrite last_time_cons. reflexivity.
Qed.

End Typing.

(** X23: while the user keeps typing without a pause of a full second,
    the client sends typing=true once, at the first change, and nothing
    more; each change restarts the timeout, so typing=false is sent 1000
    ms after the last change, not after the first. *)
Theorem typing_burst_announced_once (c : chat) (sid : string) (t0 : Z)
    (ts : list Z) :
  socket c = Some sid → isTyping c = false → typingTimeout c = None →
  Invariants.burst t0 ts →
  let c' := (Composer.keystrokes (t0 :: ts) c).1 in
  let stop := (Invariants.last_time t0 ts + typing_ttl)%Z in
  (Composer.keystrokes (t0 :: ts) c).2 = [SocketEmit sid "typing" (typing_data c true)]
  ∧ isTyping c' = true ∧ typingTimeout c' = Some stop
  ∧ (∀ t, (t < stop)%Z → elapse t c' = (c', []))
  ∧ (elapse stop c').2 = [SocketEmit sid "typing" (typing_data c false)].
Proof.
  intros Hsock Hidle Hnone Hburst c' stop.
  assert (Composer.keystrokes (t0 :: ts) c
          = (set_typing true (Some stop) c,
             [SocketEmit sid "typing" (typing_data c true)])) as Hk.
  { cbn [Composer.keystrokes]. unfold elapse. rewrite Hnone.
    unfold handleTyping. rewrite Hidle.
    rewrite (keystrokes_in_burst ts t0
               (set_typing true (Some (t0 + typing_ttl)%Z) c)) by done.
    unfold sendTyping, emit_if_connected. rewrite Hsock. reflexivity. }
  subst c'. rewrite Hk. simpl.
  split; [done|]. split; [done|]. split; [done|]. split.
  - intros t Ht. unfold elapse. simpl.
    destruct (Z.leb_spec stop t); [lia | done].
  - unfold elapse. simpl. rewrite Z.leb_refl. simpl.
    unfold sendTyping, emit_if_connected. simpl. by rewrite Hsock.
Qed.

Lemma typing_burst_announced_once_witness :
  let c := Scenario.alice_chat in
  let c' := (Composer.keystrokes [0; 900; 1800; 2700]%Z c).1 in
  (Composer.keystrokes [0; 900; 1800; 2700]%Z c).2
  = [SocketEmit "A" "typing" (typing_data c true)]
  ∧ isTyping c' = true ∧ typingTimeout c' = Some 3700%Z
  ∧ (∀ t, (t < 3700)%Z → elapse t c' = (c', []))
  ∧ (elapse 3700 c').2 = [SocketEmit "A" "typing" (typing_data c false)].
Proof.
  intros c c'.
  apply (typing_burst_announced_once c "A" 0 [900; 1800; 2700]%Z);
    try reflexivity.
  simpl. unfold typing_ttl. lia.
Defined.

Section Attachments.

Context {A : Type}.

Lemma filter_index_skip (index : Z) (k : nat) (l : list A) :
  Composer.filter_index (λ i, negb (Z.of_nat i =? index)%Z) k l
  = if decide (Z.of_nat k ≤ index < Z.of_nat k + Z.of_nat (length l))%Z
    then delete (Z.to_nat index - k)%nat l else l.
Proof.
  revert k. induction l as [|x l IH]; intros k; simpl.
  - by case_decide.
  - rewrite IH. destruct (Z.eqb_spec (Z.of_nat k) index) as [Hk|Hk]; simpl.
    + rewrite decide_False by lia. rewrite decide_True by lia.
      replace (Z.to_nat index - k)%nat with 0%nat by lia. done.
    + destruct (decide (Z.of_nat (S k) ≤ index < Z.of_nat (S k) + Z.of_nat (length l))%Z).
      * rewrite decide_True by lia.
        replace (Z.to_nat index - k)%nat with (S (Z.to_nat index - S k)) by lia.
        done.
      * by rewrite decide_False by lia.
Qed.

End Attachments.

(** X24: removeAttachment(index) takes out exactly the attachment at that
    position, keeping the others in order; an index that is negative or
    not below the number of attachments leaves the list as it is. *)
Theorem removeAttachment_removes_one {A} (index : Z) (prev : list A) :
  Composer.removeAttachment index prev
  = if decide (0 ≤ index < Z.of_nat (length prev))%Z
    then delete (Z.to_nat index) prev else prev.
Proof.
  unfold Composer.removeAttachment. rewrite filter_index_skip. simpl.
  rewrite Nat.sub_0_r. done.
Qed.

Section Receiving.

Implicit Types (c v : chat) (s : server) (a b r ev : string) (p : value).




End Receiving.



Lemma error_text_not_empty (msg : option string) : Composer.error_text msg ≠ "".
Proof.
  unfold Composer.error_text. destruct msg as [m|]; [|done].
  by destruct (String.eqb_spec m "").
Qed.

(** X26: uploadFiles with files selected always ends with the uploading
    flag off, in one of two ways.  Either the upload and then the POST
    succeeded: the message is stored under a fresh id with the uploaded
    files as attachments and the type computed from the first file, and
    only then is it emitted on the socket, the dialog reset and the input
    cleared.  Or something failed: nothing is emitted, the client and the
    selected files are kept, the error is logged and a non-empty error
    text is shown. *)
Theorem uploadFiles_sends_after_storing (c c' : chat) (u u' : Composer.dialog)
    (up : Composer.upload_result) (t : Z) (e : env) (d d' : database)
    (ans : option response) (acts : list action) :
  Composer.uploadFiles c u up t e d = (c', u', d', ans, acts) →
  Composer.attachments u ≠ [] →
  Composer.isUploading u' = false
  ∧ ((∃ files progress ty m resp,
        up = Composer.Uploaded files progress
        ∧ Composer.file_messageType files = Some ty
        ∧ ans = Some resp ∧ status resp = 201%nat
        ∧ Messages d !! new_id e = None
        ∧ Messages d' !! new_id e = Some m
        ∧ Models.attachments m = files ∧ messageType m = ty
        ∧ sender m = account c ∧ room m = room_id c
        ∧ acts = (sendMessage c (Composer.file_messageData c files ty t)
                  ++ sendTyping c (typing_data c false))%list
        ∧ u' = Composer.done_dialog ∧ newMessage c' = "")
     ∨ (acts = [ConsoleError "File upload error:"]
        ∧ c' = c
        ∧ Composer.attachments u' = Composer.attachments u
        ∧ Composer.uploadError u' ≠ ""
        ∧ (ans = None ∨ ∃ resp, ans = Some resp ∧ (400 ≤ status resp)%nat))).
Proof.
  unfold Composer.uploadFiles. intros Hrun Hsel.
  destruct (Composer.attachments u) as [|f0 sel] eqn:Hatt; [done|].
  destruct up as [files progress|msg progress].
  - destruct (Composer.file_messageType files) as [ty|] eqn:Hty.
    + pose proof (post_message_outcome (account c)
                    (Composer.file_body c files ty) e d) as Hpost.
      destruct (post_message (account c) (Composer.file_body c files ty) e d)
        as [d1 resp]. simpl in Hpost.
      destruct Hpost as [(Hok & H201 & _ & _ & Hfree & cv & _ & Hm) | (Hbad & Hst)].
      * rewrite Hok in Hrun. injection Hrun as <- <- <- <- <-.
        split; [done|]. left.
        eexists files, progress, ty, _, resp. do 5 (split; [done|]).
        split; [rewrite Hm; apply lookup_insert_eq|]. done.
      * rewrite Hbad in Hrun. injection Hrun as <- <- <- <- <-.
        split; [done|]. right. simpl. rewrite Hatt.
        repeat split; try done; [apply error_text_not_empty|].
        right. by exists resp.
    + injection Hrun as <- <- <- <- <-. split; [done|]. right. simpl.
      rewrite Hatt. repeat split; try done. by left.
  - injection Hrun as <- <- <- <- <-. split; [done|]. right. simpl.
    rewrite Hatt. repeat split; try done; [apply error_text_not_empty | by left].
Qed.

Lemma uploadFiles_sends_after_storing_witness :
  ∃ c' u' d' resp,
    Composer.uploadFiles Scenario.alice_chat Cases.picking
      (Composer.Uploaded [Cases.picture] 100) 7 (Scenario.calm 8 "m1")
      Scenario.db0
    = (c', u', d', Some resp,
       [SocketEmit "A" "send_message"
          (Composer.file_messageData Scenario.alice_chat [Cases.picture] "image" 7);
        SocketEmit "A" "typing" (typing_data Scenario.alice_chat false)])
    ∧ status resp = 201%nat
    ∧ Composer.isUploading u' = false
    ∧ (Models.attachments <$> Messages d' !! "m1") = Some [Cases.picture].
Proof.
  do 4 eexists. split; [vm_compute; reflexivity|].
  split; [reflexivity|].
  split; [|vm_compute; reflexivity].
  eapply (uploadFiles_sends_after_storing Scenario.alice_chat _ Cases.picking _
            (Composer.Uploaded [Cases.picture] 100) 7 (Scenario.calm 8 "m1")
            Scenario.db0);
    [vm_compute; reflexivity | discriminate].
Defined.

(* ===================================================================== *)
(** ** The upload filter *)
(* ===================================================================== *)

Section Filter.

Implicit Types (frag s pre post : string).

Lemma prefix_append frag s post :
  String.prefix frag s = true → String.prefix frag (s ++ post) = true.
Proof.
  revert frag. induction s as [|b s IH]; intros [|a frag]; simpl; try done.
  - by destruct post.
  - destruct (Ascii.ascii_dec a b); [|done]. apply IH.
Qed.

Lemma contains_append frag s post :
  Upload.contains frag s = true → Upload.contains frag (s ++ post) = true.
Proof.
  induction s as [|b s IH]; simpl.
  - rewrite orb_false_r. intros Hp.
    destruct frag; [|done]. by destruct post.
  - intros [Hp|Hc]%orb_true_iff; apply orb_true_iff.
    + left. by apply (prefix_append frag (String b s) post).
    + right. by apply IH.
Qed.

Lemma contains_prepend frag pre s :
  Upload.contains frag s = true → Upload.contains frag (pre ++ s) = true.
Proof.
  intros Hc. induction pre as [|a pre IH]; simpl; [done|].
  apply orb_true_iff. by right.
Qed.

Lemma test_extended pre s post :
  Upload.test s = true → Upload.test (pre ++ s ++ post) = true.
Proof.
  unfold Upload.test. rewrite !existsb_exists.
  intros (frag & Hin & Hc). exists frag. split; [done|].
  by apply contains_prepend, contains_append.
Qed.

Lemma toLowerCase_append s post :
  Upload.toLowerCase (s ++ post) = Upload.toLowerCase s ++ Upload.toLowerCase post.
Proof. induction s as [|a s IH]; simpl; [done | by rewrite IH]. Qed.

End Filter.

(** X27: the upload filter looks for its fragments anywhere in the name
    and in the mimetype, so acceptance survives any text put before or
    after either of them: a file accepted as "cat.png" is accepted under
    "cat.png.exe" too. *)
Theorem fileFilter_is_unanchored (name mimetype pre post mpre mpost : string) :
  Upload.fileFilter name mimetype = true →
  Upload.fileFilter (pre ++ name ++ post) (mpre ++ mimetype ++ mpost) = true.
Proof.
  unfold Upload.fileFilter. intros [Hm Hn]%andb_true_iff. apply andb_true_iff.
  split; [by apply test_extended|].
  rewrite !toLowerCase_append. by apply test_extended.
Qed.

Lemma fileFilter_is_unanchored_witness :
  Upload.fileFilter "cat.png" "image/png" = true
  ∧ Upload.fileFilter "cat.png.exe" "image/png" = true
  ∧ Upload.fileFilter "notes.txt" "text/plain" = false.
Proof.
  split; [reflexivity|]. split; [|reflexivity].
  apply (fileFilter_is_unanchored "cat.png" "image/png" "" ".exe" "" "").
  reflexivity.
Defined.

(* ===================================================================== *)
(** ** The list of typing users *)
(* ===================================================================== *)

Lemma none_left_after_filter (uid : value) (l : list value) :
  List.filter (λ u, negb (other_user uid u)) (List.filter (other_user uid) l) = [].
Proof.
  induction l as [|u l IH]; simpl; [done|].
  destruct (other_user uid u) eqn:Hu; simpl; [by rewrite Hu | done].
Qed.

(** X28: when the user_typing listener takes a typing=true event (one
    that names the room shown) for a user id that is a string, number or
    boolean, that user is on the list exactly once afterwards, as the
    entry just received, however often they were announced before; the
    entries of the other users are all kept. *)
Theorem typing_user_listed_once (w : chat) (data uid t : value) :
  prop "roomId" data = Some (VStr (room_id w)) →
  prop "userId" data = Some uid →
  prop "isTyping" data = Some t → truthy t = true →
  strict_eq uid uid = true →
  ∃ w',
    on_user_typing data w = Some w'
    ∧ List.filter (λ u, negb (other_user uid u)) (typingUsers w') = [data]
    ∧ List.filter (other_user uid) (typingUsers w')
      = List.filter (other_user uid) (typingUsers w).
Proof.
  intros Hr Hu Ht Htrue Hid. unfold on_user_typing. rewrite Hr, Hu, Ht. simpl.
  rewrite String.eqb_refl, Htrue. eexists. split; [reflexivity|]. simpl.
  assert (other_user uid data = false) as Hself.
  { unfold other_user. by rewrite Hu, Hid. }
  rewrite !List.filter_app, none_left_after_filter. simpl. rewrite Hself. simpl.
  split; [done|]. rewrite app_nil_r.
  induction (typingUsers w) as [|u l IH]; simpl; [done|].
  destruct (other_user uid u) eqn:Hou; simpl; [by rewrite Hou, IH | done].
Qed.

Lemma typing_user_listed_once_witness :
  ∃ w1 w2,
    on_user_typing (Scenario.typing_as "alice" "alice" true) Scenario.bob_chat
      = Some w1
    ∧ on_user_typing (Scenario.typing_as "alice" "alice" true) w1 = Some w2
    ∧ typingUsers w2 = [Scenario.typing_as "alice" "alice" true].
Proof.
  eexists.
  destruct (typing_user_listed_once
              (set_typingUsers [Scenario.typing_as "alice" "alice" true]
                 Scenario.bob_chat)
              (Scenario.typing_as "alice" "alice" true) (VStr "alice") (VBool true))
    as (w2 & Hrun & Hone & _); try reflexivity.
  exists w2. split; [reflexivity|]. split; [exact Hrun|].
  injection Hrun as <-. reflexivity.
Defined.
